(** * Cascading evaluation engine of the math code editor (static/app.js)

    A shallow embedding of the client script: the module-level variables
    and the parts of the DOM the script reads back become one state
    record, every handler becomes a function on that record, and each
    [await] splits an async function into the part that runs before the
    suspension and the part that resumes after it. *)

From Stdlib Require Import ZArith Lia Ascii String DecimalString.
From stdpp Require Import base option list gmap strings.

Local Open Scope nat_scope.

(** ** JavaScript values the script handles *)

(** A string that may also be [null] or [undefined] ([None]). *)
Definition JsStr := option string.

(** [v || ""] : the empty string replaces every falsy value. *)
Definition orEmpty (v : JsStr) : string := default "" v.

(** Truthiness of a possibly missing string. *)
Definition truthy (v : JsStr) : bool :=
  match v with
  | Some s => negb (String.eqb s "")
  | None => false
  end.

(** JSON payloads carried around without being inspected (the values of
    a page's variable context).  A number is kept as its literal text. *)
#[local] Unset Elimination Schemes.
Inductive json : Type :=
| JNull
| JBool (b : bool)
| JNum (literal : string)
| JStr (s : string)
| JArr (items : list json)
| JObj (fields : list (string * json)).
#[local] Set Elimination Schemes.

(** ** String primitives *)

Module JsString.

(** [s.split("\n")]: never empty, [""] splits into [[""]]. *)
Fixpoint split_newline (s : string) : list string :=
  match s with
  | EmptyString => [""]
  | String c rest =>
      if Ascii.eqb c "010"%char then "" :: split_newline rest
      else match split_newline rest with
           | [] => [String c ""]
           | l :: ls => String c l :: ls
           end
  end.

(** ECMAScript WhiteSpace and LineTerminator code units that fit one
    character of [string]: TAB, LF, VT, FF, CR, SP and NBSP. *)
Definition is_space (c : ascii) : bool :=
  let n := nat_of_ascii c in
  (n =? 9) || (n =? 10) || (n =? 11) || (n =? 12) || (n =? 13)
  || (n =? 32) || (n =? 160).

Fixpoint trimStart (s : string) : string :=
  match s with
  | EmptyString => ""
  | String c rest => if is_space c then trimStart rest else s
  end.

(** Drops trailing white space: a character is kept when it is not
    white space or when something is kept after it. *)
Fixpoint trimEnd (s : string) : string :=
  match s with
  | EmptyString => ""
  | String c rest =>
      match trimEnd rest with
      | EmptyString => if is_space c then "" else String c ""
      | kept => String c kept
      end
  end.

(** [s.trim()] *)
Definition trim (s : string) : string := trimEnd (trimStart s).

(** [s.includes(needle)] *)
Fixpoint includes (needle s : string) : bool :=
  String.prefix needle s
  || match s with
     | EmptyString => false
     | String _ rest => includes needle rest
     end.

(** [String(n)] for a non-negative integer. *)
Definition of_nat (n : nat) : string := NilZero.string_of_uint (Nat.to_uint n).

(** [s.padStart(2, " ")] *)
Definition padStart2 (s : string) : string :=
  match String.length s with
  | 0 => "  "
  | 1 => " " +:+ s
  | _ => s
  end.

End JsString.

(** ** Data model *)

Module Page.
(** The object literal built by [createPage].  [results] and [context]
    are tested for truthiness by the script, so a missing field
    ([undefined]/[null]) is [None]; an array or object, empty or not,
    is truthy. *)
Record t : Type := mk {
  id : nat;
  name : string;
  content : string;
  results : option (list JsStr);
  context : option (gmap string json);
}.

Definition with_name (v : string) (p : t) : t :=
  mk (id p) v (content p) (results p) (context p).
Definition with_content (v : string) (p : t) : t :=
  mk (id p) (name p) v (results p) (context p).
Definition with_results (v : option (list JsStr)) (p : t) : t :=
  mk (id p) (name p) (content p) v (context p).
Definition with_context (v : option (gmap string json)) (p : t) : t :=
  mk (id p) (name p) (content p) (results p) v.
End Page.

Module ErrorEntry.
Record t : Type := mk {
  timestamp : string;
  type : string;
  message : string;
  lineNo : option nat;
}.
End ErrorEntry.

(** One [.overlay-row]: its line number cell and its result cell. *)
Module OverlayRow.
Record t : Type := mk {
  number : string;
  result : string;
}.
End OverlayRow.

(** Bodies of the HTTP requests the script sends. *)
Inductive Request : Type :=
| EvaluateRequest (lines : list string) (startIndex : nat)
    (context : gmap string (gmap string json))
| LogErrorRequest (message type : string) (lineNo : option nat)
| ErrorLogsRequest.

(** The parsed body of an [/api/evaluate] response when it is not
    [null]: the three fields the script reads, each [None] when the body
    has no such field.  A body that is a number, a string, a boolean or
    an array reads [undefined] for all three. *)
Module Payload.
Record t : Type := mk {
  results : option (list JsStr);
  context : option (gmap string json);
  error : JsStr;
}.
End Payload.

(** How an [/api/evaluate] round ends. *)
Inductive FetchOutcome : Type :=
| FetchRejected (message : string)
    (** [fetch] rejects: no response at all *)
| BodyRejected (ok : bool) (message : string)
    (** a response arrived but [response.json()] rejects *)
| RespondedNull (ok : bool)
    (** a response arrived and its body is the JSON text [null] *)
| Responded (ok : bool) (data : Payload.t).

(** ** Script state *)

(** The tab bar, the variable panel and the error modal are rebuilt from
    [pages], [currentPageId] and [errorLogs] by [renderTabs],
    [renderVariables] and [renderErrorLogs] and are never read back, so
    they are not part of the state; the overlay is, since
    [updateResultsFrom] edits its rows in place. *)
Record State : Type := mkState {
  (* DOM *)
  editor_value : string;              (* editor.value *)
  overlay : list OverlayRow.t;               (* the rows of #overlay *)
  status : string;                    (* status.textContent *)
  editorInfo : string;                (* editorInfo.textContent *)
  (* module-level variables *)
  previousLines : list string;
  latestResults : list JsStr;
  debounceTimer : option (list string * nat);
    (* the callback armed by setTimeout, with the [lines] and
       [changedIndex] its closure captured *)
  pages : list Page.t;
  errorLogs : list ErrorEntry.t;
  currentPageId : option nat;
  pageIdCounter : nat;
  (* runtime *)
  suspended : list (list string * nat);
    (* evaluateLines calls waiting at their await, with their arguments *)
  sent : list Request;                (* requests issued so far, oldest first *)
}.

Definition set_editor_value (v : string) (s : State) : State :=
  mkState v (overlay s) (status s) (editorInfo s) (previousLines s)
    (latestResults s) (debounceTimer s) (pages s) (errorLogs s)
    (currentPageId s) (pageIdCounter s) (suspended s) (sent s).
Definition set_overlay (v : list OverlayRow.t) (s : State) : State :=
  mkState (editor_value s) v (status s) (editorInfo s) (previousLines s)
    (latestResults s) (debounceTimer s) (pages s) (errorLogs s)
    (currentPageId s) (pageIdCounter s) (suspended s) (sent s).
Definition set_status (v : string) (s : State) : State :=
  mkState (editor_value s) (overlay s) v (editorInfo s) (previousLines s)
    (latestResults s) (debounceTimer s) (pages s) (errorLogs s)
    (currentPageId s) (pageIdCounter s) (suspended s) (sent s).
Definition set_editorInfo (v : string) (s : State) : State :=
  mkState (editor_value s) (overlay s) (status s) v (previousLines s)
    (latestResults s) (debounceTimer s) (pages s) (errorLogs s)
    (currentPageId s) (pageIdCounter s) (suspended s) (sent s).
Definition set_previousLines (v : list string) (s : State) : State :=
  mkState (editor_value s) (overlay s) (status s) (editorInfo s) v
    (latestResults s) (debounceTimer s) (pages s) (errorLogs s)
    (currentPageId s) (pageIdCounter s) (suspended s) (sent s).
Definition set_latestResults (v : list JsStr) (s : State) : State :=
  mkState (editor_value s) (overlay s) (status s) (editorInfo s)
    (previousLines s) v (debounceTimer s) (pages s) (errorLogs s)
    (currentPageId s) (pageIdCounter s) (suspended s) (sent s).
Definition set_debounceTimer (v : option (list string * nat)) (s : State) : State :=
  mkState (editor_value s) (overlay s) (status s) (editorInfo s)
    (previousLines s) (latestResults s) v (pages s) (errorLogs s)
    (currentPageId s) (pageIdCounter s) (suspended s) (sent s).
Definition set_pages (v : list Page.t) (s : State) : State :=
  mkState (editor_value s) (overlay s) (status s) (editorInfo s)
    (previousLines s) (latestResults s) (debounceTimer s) v (errorLogs s)
    (currentPageId s) (pageIdCounter s) (suspended s) (sent s).
Definition set_errorLogs (v : list ErrorEntry.t) (s : State) : State :=
  mkState (editor_value s) (overlay s) (status s) (editorInfo s)
    (previousLines s) (latestResults s) (debounceTimer s) (pages s) v
    (currentPageId s) (pageIdCounter s) (suspended s) (sent s).
Definition set_currentPageId (v : option nat) (s : State) : State :=
  mkState (editor_value s) (overlay s) (status s) (editorInfo s)
    (previousLines s) (latestResults s) (debounceTimer s) (pages s)
    (errorLogs s) v (pageIdCounter s) (suspended s) (sent s).
Definition set_pageIdCounter (v : nat) (s : State) : State :=
  mkState (editor_value s) (overlay s) (status s) (editorInfo s)
    (previousLines s) (latestResults s) (debounceTimer s) (pages s)
    (errorLogs s) (currentPageId s) v (suspended s) (sent s).
Definition set_suspended (v : list (list string * nat)) (s : State) : State :=
  mkState (editor_value s) (overlay s) (status s) (editorInfo s)
    (previousLines s) (latestResults s) (debounceTimer s) (pages s)
    (errorLogs s) (currentPageId s) (pageIdCounter s) v (sent s).
Definition set_sent (v : list Request) (s : State) : State :=
  mkState (editor_value s) (overlay s) (status s) (editorInfo s)
    (previousLines s) (latestResults s) (debounceTimer s) (pages s)
    (errorLogs s) (currentPageId s) (pageIdCounter s) (suspended s) v.

(** ** Rendering and result projection *)

(** [renderLines(lines)]: the overlay is rebuilt, one row per line, each
    result cell read from [latestResults] at the row's own index. *)
Definition renderLines (lines : list string) (s : State) : State :=
  set_overlay
    (imap (fun index _ =>
             OverlayRow.mk (JsString.padStart2 (JsString.of_nat (index + 1)))
                    (orEmpty (mjoin (latestResults s !! index))))
          lines)
    s.

(** One turn of the loop body of [updateResultsFrom]: [rows[i]], when it
    exists, gets [results[i] || ""] as the text of its result cell. *)
Definition setResultCell (i : nat) (results : list JsStr) (rows : list OverlayRow.t)
  : list OverlayRow.t :=
  match rows !! i with
  | Some row => <[i := OverlayRow.mk (OverlayRow.number row) (orEmpty (mjoin (results !! i)))]> rows
  | None => rows
  end.

(** [for (let i = startIndex; i < results.length; i += 1) ...] *)
Fixpoint updateResultsFrom_loop (fuel i : nat) (results : list JsStr)
  (rows : list OverlayRow.t) : list OverlayRow.t :=
  match fuel with
  | 0 => rows
  | S fuel' =>
      if decide (i < length results)
      then updateResultsFrom_loop fuel' (S i) results (setResultCell i results rows)
      else rows
  end.

Definition updateResultsFrom (startIndex : nat) (results : list JsStr)
  (s : State) : State :=
  let s := set_latestResults results s in
  set_overlay (updateResultsFrom_loop (length results) startIndex results (overlay s)) s.

(** ** Change detection *)

(** [for (let i = 0; i < max; i += 1) if (lines[i] !== previousLines[i]) return i;]
    An index past the end of an array reads [undefined] ([None]). *)
Fixpoint getChangedLineIndex_loop (fuel i : nat) (lines previous : list string) : Z :=
  match fuel with
  | 0 => (-1)%Z
  | S fuel' =>
      if decide (lines !! i = previous !! i)
      then getChangedLineIndex_loop fuel' (S i) lines previous
      else Z.of_nat i
  end.

Definition getChangedLineIndex (lines : list string) (s : State) : Z :=
  let max := Nat.max (length lines) (length (previousLines s)) in
  getChangedLineIndex_loop max 0 lines (previousLines s).

(** ** Error log *)

(** The synchronous part of [logError(message, type, lineNo)]: the entry
    is pushed, the oldest entry is shifted out when more than 100 remain,
    and the entry is posted to the server.  [now] is the value of
    [new Date().toISOString()].  The outcome of the POST changes nothing
    in the state (a failure is only written to the console). *)
Definition logError (message type : string) (lineNo : option nat)
  (now : string) (s : State) : State :=
  let error := ErrorEntry.mk now type message lineNo in
  let logs := errorLogs s ++ [error] in
  let logs := if decide (100 < length logs) then drop 1 logs else logs in
  set_sent (sent s ++ [LogErrorRequest message type lineNo])
    (set_errorLogs logs s).

(** ** Evaluation client *)

(** The snapshot built by [pages.forEach] in [evaluateLines]: a later
    page overwrites an earlier one of the same name. *)
Module Snapshot.
(** The object [allPagesContext] while it is filled: its own properties
    and its prototype ([None]: still [Object.prototype], [Some c]: the
    context object the [__proto__] setter has put in its place). *)
Record t : Type := mk {
  own : gmap string (gmap string json);
  proto : option (gmap string json);
}.
End Snapshot.

(** [allPagesContext[name] = value].  Every property the object can
    inherit is a writable data property, for which the assignment creates
    an own property, except [__proto__] of [Object.prototype], an accessor
    whose setter replaces the prototype.  So the name [__proto__] is
    written as an own property only when the object has it already or
    inherits it from a context object that has it as a key. *)
Definition assignProperty (name : string) (value : gmap string json)
  (o : Snapshot.t) : Snapshot.t :=
  if decide (name = "__proto__") then
    match Snapshot.own o !! name with
    | Some _ => Snapshot.mk (<[name := value]> (Snapshot.own o)) (Snapshot.proto o)
    | None =>
        match Snapshot.proto o with
        | Some c =>
            match c !! name with
            | Some _ => Snapshot.mk (<[name := value]> (Snapshot.own o)) (Snapshot.proto o)
            | None => Snapshot.mk (Snapshot.own o) (Some value)
            end
        | None => Snapshot.mk (Snapshot.own o) (Some value)
        end
    end
  else Snapshot.mk (<[name := value]> (Snapshot.own o)) (Snapshot.proto o).

Definition snapshotPage (cur : option nat) (acc : Snapshot.t) (page : Page.t)
  : Snapshot.t :=
  if decide (Some (Page.id page) ≠ cur)
  then match Page.results page with
       | Some _ => assignProperty (Page.name page) (default ∅ (Page.context page)) acc
       | None => acc
       end
  else acc.

(** The snapshot as [JSON.stringify] writes it into the request: the own
    properties of the object. *)
Definition allPagesContext (s : State) : gmap string (gmap string json) :=
  Snapshot.own (foldl (snapshotPage (currentPageId s)) (Snapshot.mk ∅ None) (pages s)).

(** [evaluateLines] up to [await fetch(...)]. *)
Definition evaluateLines_begin (lines : list string) (startIndex : nat)
  (s : State) : State :=
  let s := set_status "Evaluating..." s in
  let s := set_editorInfo "Evaluating..." s in
  let s := set_sent (sent s ++ [EvaluateRequest lines startIndex (allPagesContext s)]) s in
  set_suspended (suspended s ++ [(lines, startIndex)]) s.

(** [pages.find(p => p.id === pageId)] *)
Definition findPage (pageId : option nat) (ps : list Page.t) : option Page.t :=
  List.find (fun p => bool_decide (Some (Page.id p) = pageId)) ps.

(** Mutation of the object [pages.find(p => p.id === pageId)] returns:
    the first page with that id is changed in place. *)
Fixpoint updatePage (pageId : option nat) (f : Page.t → Page.t)
  (ps : list Page.t) : list Page.t :=
  match ps with
  | [] => []
  | p :: rest =>
      if bool_decide (Some (Page.id p) = pageId) then f p :: rest
      else p :: updatePage pageId f rest
  end.

(** The [catch] block of [evaluateLines]. *)
Definition evaluateLines_catch (message now : string) (s : State) : State :=
  let s := set_status "Evaluation failed" s in
  let s := set_editorInfo "Failed" s in
  logError ("Network error: " +:+ message) "network" None now s.

(** [data.results.forEach((result, idx) => ...)]: every truthy result
    holding the marker is logged with its line number. *)
Fixpoint logResultErrors (idx startIndex : nat) (results : list JsStr)
  (now : string) (s : State) : State :=
  match results with
  | [] => s
  | result :: rest =>
      let s :=
        if truthy result && JsString.includes "Error:" (orEmpty result)
        then logError (orEmpty result) "evaluation" (Some (idx + startIndex + 1)) now s
        else s in
      logResultErrors (S idx) startIndex rest now s
  end.

(** Message of the TypeError raised by [data.results.forEach] when the
    payload has no [results] (V8's wording). *)
Definition forEachOfUndefined : string :=
  "Cannot read properties of undefined (reading 'forEach')".

(** Message of the TypeError raised by reading [data.results] or
    [data.error] when [data] is [null] (V8's wording). *)
Definition readOfNull (property : string) : string :=
  "Cannot read properties of null (reading '" +:+ property +:+ "')".

(** [data.error || "Evaluation failed"]. *)
Definition errorMsgOf (data : Payload.t) : string :=
  if truthy (Payload.error data) then orEmpty (Payload.error data)
  else "Evaluation failed".

(** [evaluateLines] from the point where the awaited response (or the
    rejection) is delivered. *)
Definition evaluateLines_resume (lines : list string) (startIndex : nat)
  (outcome : FetchOutcome) (now : string) (s : State) : State :=
  match outcome with
  | FetchRejected message => evaluateLines_catch message now s
  | BodyRejected _ message => evaluateLines_catch message now s
  | RespondedNull true => evaluateLines_catch (readOfNull "results") now s
  | RespondedNull false => evaluateLines_catch (readOfNull "error") now s
  | Responded true data =>
      let s := updateResultsFrom startIndex (default [] (Payload.results data)) s in
      let s := set_pages
                 (updatePage (currentPageId s)
                    (Page.with_context (Some (default ∅ (Payload.context data))))
                    (pages s)) s in
      let s := set_status "Ready" s in
      let s := set_editorInfo (JsString.of_nat (length lines) +:+ " lines") s in
      match Payload.results data with
      | Some results => logResultErrors 0 startIndex results now s
      | None => evaluateLines_catch forEachOfUndefined now s
      end
  | Responded false data =>
      let errorMsg := errorMsgOf data in
      let s := set_status errorMsg s in
      let s := set_editorInfo "Error" s in
      logError errorMsg "api" None now s
  end.

(** ** Scheduler *)

(** [scheduleEvaluation()].  [clearTimeout] followed by [setTimeout]
    replaces whatever callback was armed. *)
Definition scheduleEvaluation (s : State) : State :=
  let lines := JsString.split_newline (editor_value s) in
  let changedIndex := getChangedLineIndex lines s in
  if (changedIndex =? -1)%Z then s
  else
    let s := set_previousLines lines s in
    let s := renderLines lines s in
    set_debounceTimer (Some (lines, Z.to_nat changedIndex)) s.

(** The armed callback runs after 250 ms. *)
Definition debounceFire (s : State) : State :=
  match debounceTimer s with
  | Some (lines, changedIndex) =>
      evaluateLines_begin lines changedIndex (set_debounceTimer None s)
  | None => s
  end.

(** ** Page registry *)

(** [createPage(name)]: the new page is pushed and also returned. *)
Definition createPage (name : JsStr) (s : State) : Page.t * State :=
  let id := pageIdCounter s in
  let s := set_pageIdCounter (S id) s in
  let page := Page.mk id
                (if truthy name then orEmpty name
                 else "Page" +:+ JsString.of_nat (id + 1))
                "" (Some []) (Some ∅) in
  (page, set_pages (pages s ++ [page]) s).

Definition saveCurrentPage (s : State) : State :=
  set_pages
    (updatePage (currentPageId s)
       (fun page => Page.with_results (Some (latestResults s))
                      (Page.with_content (editor_value s) page))
       (pages s)) s.

(** The part of [switchToPage] after [saveCurrentPage()]. *)
Definition activatePage (pageId : nat) (s : State) : State :=
  let s := set_currentPageId (Some pageId) s in
  match findPage (Some pageId) (pages s) with
  | Some page =>
      let s := set_editor_value (Page.content page) s in
      let s := set_previousLines (JsString.split_newline (Page.content page)) s in
      let s := set_latestResults (default [] (Page.results page)) s in
      renderLines (previousLines s) s
  | None => s
  end.

Definition switchToPage (pageId : nat) (s : State) : State :=
  activatePage pageId (saveCurrentPage s).

(** [finish(apply)] of [startRenameTab(page, ...)], for the page object
    with id [pageId] and the text [inputValue] of the rename box. *)
Definition finish (pageId : nat) (inputValue : string) (apply : bool)
  (s : State) : State :=
  let value := JsString.trim inputValue in
  if apply && truthy (Some value)
  then set_pages (updatePage (Some pageId) (Page.with_name value) (pages s)) s
  else s.

(** Events of the rename box and the handlers registered for them. *)
Inductive RenameKey : Type := Blur | Enter | Escape.

Definition renameEvent (pageId : nat) (inputValue : string) (k : RenameKey)
  (s : State) : State :=
  match k with
  | Blur => finish pageId inputValue true s
  | Enter => finish pageId inputValue true s   (* input.blur() *)
  | Escape => finish pageId inputValue false s
  end.

(** [pages.findIndex(p => p.id === pageId)], [None] for -1. *)
Fixpoint findIndex (pageId : nat) (ps : list Page.t) : option nat :=
  match ps with
  | [] => None
  | p :: rest =>
      if bool_decide (Page.id p = pageId) then Some 0
      else S <$> findIndex pageId rest
  end.

(** [pages.splice(idx, 1)]; a start of -1 counts from the end. *)
Definition splice1 (idx : option nat) (ps : list Page.t) : list Page.t :=
  match idx with
  | Some i => delete i ps
  | None => removelast ps
  end.

(** [closeBtn.onclick] of the tab rendered for the page with id [pageId]. *)
Definition closeTab (pageId : nat) (s : State) : State :=
  if decide (1 < length (pages s)) then
    let idx := findIndex pageId (pages s) in
    let s := set_pages (splice1 idx (pages s)) s in
    if decide (currentPageId s = Some pageId) then
      match pages s with
      | first :: _ => switchToPage (Page.id first) s
      | [] => s
      end
    else s
  else s.

(** ** Top-level handlers *)

(** [runBtn] click *)
Definition runClick (s : State) : State :=
  evaluateLines_begin (JsString.split_newline (editor_value s)) 0 s.

(** [clearBtn] click *)
Definition clearClick (s : State) : State :=
  let s := set_editor_value "" s in
  let s := set_previousLines [] s in
  let s := set_latestResults [] s in
  let s := renderLines [] s in
  let s := set_editorInfo "Ready" s in
  saveCurrentPage s.

(** [addTabBtn] click *)
Definition addTabClick (s : State) : State :=
  let '(page, s) := createPage None s in
  switchToPage (Page.id page) s.

(** [clearErrorsBtn] click *)
Definition clearErrorsClick (s : State) : State :=
  set_sent (sent s ++ [LogErrorRequest "Logs cleared" "system" None])
    (set_errorLogs [] s).

(** [editorInfo] click: [showErrorModal] up to its [await fetch(...)]. *)
Definition showErrorModal_begin (s : State) : State :=
  set_sent (sent s ++ [ErrorLogsRequest]) s.

(** [showErrorModal] after its fetch: the local log is replaced by the
    server's list ([data.errors || []]). *)
Definition errorLogsFetched (errors : option (list ErrorEntry.t)) (s : State) : State :=
  set_errorLogs (default [] errors) s.

(** The state before the script's last line runs, with the initial text
    of the editor. *)
Definition initial (text : string) : State :=
  mkState text [] "" "" [] [] None [] [] None 0 [] [].

Definition bootstrap (text : string) : State :=
  let '(initialPage, s) := createPage (Some "Main") (initial text) in
  let s := set_currentPageId (Some (Page.id initialPage)) s in
  let s := set_pages
             (updatePage (Some (Page.id initialPage))
                (Page.with_content (editor_value s)) (pages s)) s in
  let s := set_previousLines (JsString.split_newline (editor_value s)) s in
  let s := renderLines (previousLines s) s in
  evaluateLines_begin (previousLines s) 0 s.

(** ** Event loop *)

(** What can happen to the page once the script has run.  Inserting a
    function or variable reference is an [EditorInput] with the extended
    text.  Tab events name the page whose tab is used. *)
Inductive Event : Type :=
| EditorInput (text : string)
| DebounceFire
| EvaluateSettled (k : nat) (outcome : FetchOutcome) (now : string)
| RunClick
| ClearClick
| AddTabClick
| TabClick (pageId : nat)
| TabClose (pageId : nat)
| TabRename (pageId : nat) (inputValue : string) (key : RenameKey)
| EditorInfoClick
| ErrorLogsFetched (errors : option (list ErrorEntry.t))
| ClearErrorsClick.

(** A tab exists exactly for the pages of the list. *)
Definition hasTab (pageId : nat) (s : State) : bool :=
  bool_decide (is_Some (findIndex pageId (pages s))).

Definition step (s : State) (e : Event) : State :=
  match e with
  | EditorInput text => scheduleEvaluation (set_editor_value text s)
  | DebounceFire => debounceFire s
  | EvaluateSettled k outcome now =>
      match suspended s !! k with
      | Some (lines, startIndex) =>
          evaluateLines_resume lines startIndex outcome now
            (set_suspended (delete k (suspended s)) s)
      | None => s
      end
  | RunClick => runClick s
  | ClearClick => clearClick s
  | AddTabClick => addTabClick s
  | TabClick pageId => if hasTab pageId s then switchToPage pageId s else s
  | TabClose pageId => if hasTab pageId s then closeTab pageId s else s
  | TabRename pageId inputValue key =>
      if hasTab pageId s then renameEvent pageId inputValue key s else s
  | EditorInfoClick => showErrorModal_begin s
  | ErrorLogsFetched errors => errorLogsFetched errors s
  | ClearErrorsClick => clearErrorsClick s
  end.

(** The state after the script has run on an editor holding [text] and
    the events [evs] have been handled in order. *)
Definition run (text : string) (evs : list Event) : State :=
  foldl step (bootstrap text) evs.

(** ** Vocabulary of the properties *)

(** What the loop body writes into a row. *)
Definition projected (results : list JsStr) (i : nat) (row : OverlayRow.t)
  : OverlayRow.t :=
  OverlayRow.mk (OverlayRow.number row) (orEmpty (mjoin (results !! i))).

(** The reading of the results array under which entry 0 belongs to
    document line [k]: every existing row [k + j] shows [R[j] || ""]. *)
Definition projects_relative (k : nat) (R : list JsStr) (s : State) : Prop :=
  ∀ j, j < length R →
    is_Some (overlay s !! (k + j)) →
    OverlayRow.result <$> overlay (updateResultsFrom k R s) !! (k + j)
      = Some (orEmpty (mjoin (R !! j))).

(** Three evaluated lines on screen. *)
Definition threeLines : State :=
  run ("1" +:+ String "010" ("2" +:+ String "010" "3"))
    [EvaluateSettled 0
       (Responded true (Payload.mk (Some [Some "1"; Some "2"; Some "3"]) None None))
       "t0"].

(** Appending a batch of entries one [logError] call after the other. *)
Definition logAll (entries : list ErrorEntry.t) (s : State) : State :=
  foldl (fun s e =>
           logError (ErrorEntry.message e) (ErrorEntry.type e)
             (ErrorEntry.lineNo e) (ErrorEntry.timestamp e) s)
        s entries.

(** A response arrived and its status is not a success status. *)
Definition nonSuccess (o : FetchOutcome) : bool :=
  match o with
  | BodyRejected false _ | RespondedNull false | Responded false _ => true
  | _ => false
  end.

(** The round ends with an entry tagged [api] at the end of the log. *)
Definition logs_api_entry (lines : list string) (k : nat) (o : FetchOutcome)
  (now : string) (s : State) : Prop :=
  ErrorEntry.type <$> last (errorLogs (evaluateLines_resume lines k o now s))
    = Some "api".

(** Two pages, the second one active, with text typed into it. *)
Definition twoPages : State :=
  run "x = 2" [AddTabClick; EditorInput "y = 3"].

(** The page list, the active id and the id counter fit together: there
    is a page, ids are pairwise distinct and below the counter, every page
    carries a results array, and the active id is the id of a page. *)
Definition registryOk (ps : list Page.t) (cur : option nat) (cnt : nat) : Prop :=
  ps ≠ [] ∧
  NoDup (Page.id <$> ps) ∧
  Forall (λ p, Page.id p < cnt) ps ∧
  Forall (λ p, is_Some (Page.results p)) ps ∧
  ∃ pid, cur = Some pid ∧ pid ∈ Page.id <$> ps.

Definition PagesOk (s : State) : Prop :=
  registryOk (pages s) (currentPageId s) (pageIdCounter s).







(** ** Insert buttons *)

(** The prefix chosen by [insertBtn.onclick] of a search match. *)
Definition libraryPrefix (library : string) : string :=
  if String.eqb library "numpy" then "np."
  else if String.eqb library "sympy" then "sp."
  else library +:+ ".".

(** [insertBtn.onclick] of a search match:
    [editor.value += `${prefix}${matchName}()`; scheduleEvaluation()]. *)
Definition insertFunction (library matchName : string) (s : State) : State :=
  scheduleEvaluation
    (set_editor_value
       (editor_value s +:+ (libraryPrefix library +:+ (matchName +:+ "()"))) s).

(** The Insert button of a variable row, for the current name of its
    page and the key of the row:
    [editor.value += `\n${page.name}.${key}`; scheduleEvaluation()]. *)
Definition insertVariable (pageName key : string) (s : State) : State :=
  let reference := pageName +:+ ("." +:+ key) in
  scheduleEvaluation
    (set_editor_value (editor_value s +:+ String "010" reference) s).

(** ** Side panes *)

Module Pane.
(** A pane with its wrapper and its dock button: the classes the script
    toggles ([hidden] and [floating] on the wrapper, [open] on the pane),
    [pane.style.width], [wrapper.dataset.dock],
    [wrapper.style.transform] and the text of the dock button. *)
Record t : Type := mk {
  hidden : bool;
  isOpen : bool;
  floating : bool;
  width : string;
  dock : JsStr;
  transform : string;
  dockLabel : string;
}.
End Pane.

(** [openPane(wrapper, pane)] *)
Definition openPane (p : Pane.t) : Pane.t :=
  Pane.mk false true (Pane.floating p)
    (if negb (truthy (Some (Pane.width p))) || String.eqb (Pane.width p) "0px"
     then "320px" else Pane.width p)
    (Pane.dock p) (Pane.transform p) (Pane.dockLabel p).

(** [closePane(wrapper, pane)] *)
Definition closePane (p : Pane.t) : Pane.t :=
  Pane.mk true false false "0px" (Pane.dock p) (Pane.transform p) (Pane.dockLabel p).

(** [toggleDock(wrapper, button)] *)
Definition toggleDock (p : Pane.t) : Pane.t :=
  let current := if truthy (Pane.dock p) then orEmpty (Pane.dock p) else "right" in
  let next := if String.eqb current "right" then "left" else "right" in
  Pane.mk (Pane.hidden p) (Pane.isOpen p) (Pane.floating p) (Pane.width p)
    (Some next) (Pane.transform p)
    (if String.eqb next "right" then "Dock Left" else "Dock Right").

(** The click handler of a dock button: [toggleDock], then the wrapper
    stops floating and loses its transform. *)
Definition dockClick (p : Pane.t) : Pane.t :=
  let p := toggleDock p in
  Pane.mk (Pane.hidden p) (Pane.isOpen p) false (Pane.width p)
    (Pane.dock p) "" (Pane.dockLabel p).

(** ** Further vocabulary *)

(** The entries [data.results.forEach] logs: one for each truthy result
    holding "Error:", with the line number the script computes. *)
Fixpoint markedEntries (idx startIndex : nat) (results : list JsStr)
  (now : string) : list ErrorEntry.t :=
  match results with
  | [] => []
  | result :: rest =>
      (if truthy result && JsString.includes "Error:" (orEmpty result)
       then [ErrorEntry.mk now "evaluation" (orEmpty result)
               (Some (idx + startIndex + 1))]
       else [])
      ++ markedEntries (S idx) startIndex rest now
  end.

(** A burst of edits: input events with nothing in between. *)
Definition burst (texts : list string) (s : State) : State :=
  foldl step s (EditorInput <$> texts).

(** Events of the tab bar and the Clear button. *)
Definition navigation (e : Event) : bool :=
  match e with
  | AddTabClick | TabClick _ | TabClose _ | TabRename _ _ _ | ClearClick => true
  | _ => false
  end.

(** No character of the string is white space. *)
Fixpoint noSpace (s : string) : bool :=
  match s with
  | EmptyString => true
  | String c rest => negb (JsString.is_space c) && noSpace rest
  end.

(** A page name as the script itself produces them: not empty and
    without white space at either end. *)
Definition tidyName (p : Page.t) : Prop :=
  Page.name p ≠ "" ∧ JsString.trim (Page.name p) = Page.name p.

(** * Properties *)

(** ** String primitives on sample inputs *)

Example split_newline_trailing :
  JsString.split_newline ("a" +:+ String "010" ("b" +:+ String "010" ""))
    = ["a"; "b"; ""].
Proof. reflexivity. Qed.

Example split_newline_empty : JsString.split_newline "" = [""].
Proof. reflexivity. Qed.

Example trim_inner_space : JsString.trim "  Page 2 " = "Page 2".
Proof. reflexivity. Qed.

Example trim_blank : JsString.trim (String "009" "  ") = "".
Proof. reflexivity. Qed.

Example includes_marker : JsString.includes "Error:" "NameError: x" = true.
Proof. reflexivity. Qed.

Example padStart2_numbers :
  JsString.padStart2 (JsString.of_nat 7) = " 7"
  ∧ JsString.padStart2 (JsString.of_nat 12) = "12".
Proof. split; reflexivity. Qed.

(** ** Change detector *)

Lemma getChangedLineIndex_loop_spec (lines previous : list string) :
  ∀ fuel i,
    (∀ j, j < i → lines !! j = previous !! j) →
    (getChangedLineIndex_loop fuel i lines previous = (-1)%Z ∧
     ∀ j, j < i + fuel → lines !! j = previous !! j)
    ∨ (∃ k, getChangedLineIndex_loop fuel i lines previous = Z.of_nat k ∧
            k < i + fuel ∧ lines !! k ≠ previous !! k ∧
            ∀ j, j < k → lines !! j = previous !! j).
Proof.
  induction fuel as [|fuel IH]; intros i Hbelow; simpl.
  - left. split; [done|]. intros j Hj. apply Hbelow. lia.
  - destruct (decide (lines !! i = previous !! i)) as [Heq|Hne].
    + destruct (IH (S i)) as [[Hr Hall]|(k & Hr & Hk & Hd & Hmin)].
      * intros j Hj. destruct (decide (j = i)) as [->|]; [done|]. apply Hbelow. lia.
      * left. split; [done|]. intros j Hj. apply Hall. lia.
      * right. exists k. repeat split; [done|lia|done|done].
    + right. exists i. repeat split; [lia|done|done].
Qed.

Lemma lookup_agree_eq {A} (l1 l2 : list A) :
  (∀ j, j < Nat.max (length l1) (length l2) → l1 !! j = l2 !! j) → l1 = l2.
Proof.
  intros H. apply list_eq. intros j.
  destruct (decide (j < Nat.max (length l1) (length l2))) as [Hj|Hj]; [by apply H|].
  rewrite !lookup_ge_None_2; [done|lia..].
Qed.

(** Either the arrays are equal and the answer is -1, or the answer is
    the least index of a difference. *)
Lemma getChangedLineIndex_cases (C : list string) (s : State) :
  (getChangedLineIndex C s = (-1)%Z ∧ previousLines s = C)
  ∨ (∃ k, getChangedLineIndex C s = Z.of_nat k ∧
          previousLines s !! k ≠ C !! k ∧
          ∀ j, j < k → previousLines s !! j = C !! j).
Proof.
  unfold getChangedLineIndex.
  destruct (getChangedLineIndex_loop_spec C (previousLines s)
              (Nat.max (length C) (length (previousLines s))) 0)
    as [[Hr Hall]|(k & Hr & Hk & Hd & Hmin)]; [intros j Hj; lia|..].
  - left. split; [done|]. symmetry. apply lookup_agree_eq. intros. apply Hall. lia.
  - right. exists k. split_and!; [done|congruence|].
    intros j Hj. symmetry. by apply Hmin.
Qed.

(** C2.  The change detector returns -1 exactly when the previous and the
    current line arrays are equal, and otherwise the least index at which
    they differ, an index present in only one of the arrays counting as a
    difference. *)
Theorem getChangedLineIndex_first_divergence (C : list string) (s : State) :
  let P := previousLines s in
  let r := getChangedLineIndex C s in
  (r = (-1)%Z ↔ P = C) ∧
  (P ≠ C ↔ ∃ i, r = Z.of_nat i ∧ P !! i ≠ C !! i ∧ ∀ j, j < i → P !! j = C !! j).
Proof.
  cbv zeta.
  destruct (getChangedLineIndex_cases C s) as [[Hr Heq]|(k & Hr & Hd & Hmin)];
    rewrite Hr.
  - split; [done|]. split; [done|]. intros (i & Hi & _). lia.
  - assert (previousLines s ≠ C) as Hne by (intros Heq; by rewrite Heq in Hd).
    split; [split; [lia|done]|].
    split; [|done]. intros _. by exists k.
Qed.

Example getChangedLineIndex_edit :
  getChangedLineIndex ["a"; "c"] (set_previousLines ["a"; "b"] (initial "")) = 1%Z.
Proof. reflexivity. Qed.

Example getChangedLineIndex_grow :
  getChangedLineIndex ["a"; "b"] (set_previousLines ["a"] (initial "")) = 1%Z.
Proof. reflexivity. Qed.

(** ** Scheduler *)

(** C5.  When the lines of the editor are the lines last committed,
    [scheduleEvaluation] returns the state it was given: nothing is sent,
    no timer is armed and no variable changes. *)
Theorem scheduleEvaluation_unchanged_noop (s : State) :
  JsString.split_newline (editor_value s) = previousLines s →
  scheduleEvaluation s = s.
Proof.
  intros Heq. unfold scheduleEvaluation.
  destruct (getChangedLineIndex_cases
              (JsString.split_newline (editor_value s)) s)
    as [[Hr _]|(k & _ & Hd & _)].
  - by rewrite Hr.
  - by rewrite Heq in Hd.
Qed.

Lemma scheduleEvaluation_unchanged_noop_witness :
  JsString.split_newline (editor_value (bootstrap "x = 2")) = previousLines (bootstrap "x = 2")
  ∧ scheduleEvaluation (bootstrap "x = 2") = bootstrap "x = 2".
Proof.
  split; [reflexivity|].
  apply (scheduleEvaluation_unchanged_noop (bootstrap "x = 2")). reflexivity.
Defined.

(** ** Result projector *)

Lemma setResultCell_lookup (results : list JsStr) (rows : list OverlayRow.t) (i j : nat) :
  setResultCell i results rows !! j =
    if decide (j = i) then projected results i <$> rows !! j else rows !! j.
Proof.
  unfold setResultCell. destruct (rows !! i) as [row|] eqn:Hrow.
  - destruct (decide (j = i)) as [->|Hne].
    + rewrite list_lookup_insert_eq by (by eapply lookup_lt_Some). by rewrite Hrow.
    + by rewrite list_lookup_insert_ne.
  - destruct (decide (j = i)) as [->|Hne]; [by rewrite Hrow|done].
Qed.

Lemma updateResultsFrom_loop_lookup (results : list JsStr) :
  ∀ fuel i rows j,
    length results - i ≤ fuel →
    updateResultsFrom_loop fuel i results rows !! j =
      if decide (i ≤ j < length results)
      then projected results j <$> rows !! j else rows !! j.
Proof.
  induction fuel as [|fuel IH]; intros i rows j Hfuel; simpl.
  - destruct (decide (i ≤ j < length results)); [lia|done].
  - destruct (decide (i < length results)) as [Hi|Hi].
    + rewrite IH by lia. rewrite setResultCell_lookup.
      destruct (decide (j = i)) as [->|Hne].
      * destruct (decide (S i ≤ i < length results)); [lia|].
        destruct (decide (i ≤ i < length results)); [done|lia].
      * destruct (decide (S i ≤ j < length results));
          destruct (decide (i ≤ j < length results)); (done || lia).
    + destruct (decide (i ≤ j < length results)); [lia|done].
Qed.

Lemma updateResultsFrom_loop_length (results : list JsStr) :
  ∀ fuel i rows, length (updateResultsFrom_loop fuel i results rows) = length rows.
Proof.
  induction fuel as [|fuel IH]; intros i rows; simpl; [done|].
  destruct (decide (i < length results)); [|done].
  rewrite IH. unfold setResultCell.
  destruct (rows !! i); [by rewrite length_insert|done].
Qed.

Example threeLines_overlay :
  overlay threeLines =
    [OverlayRow.mk " 1" "1"; OverlayRow.mk " 2" "2"; OverlayRow.mk " 3" "3"].
Proof. vm_compute. reflexivity. Qed.

(** C1 (as stated, refuted).  With line 1 edited to "5", a results array
    ["5"; "3"] meant for lines 1 and 2 puts "3", not "5", on line 1. *)
Lemma updateResultsFrom_not_relative :
  ¬ projects_relative 1 [Some "5"; Some "3"] threeLines.
Proof.
  intros H. specialize (H 0).
  vm_compute in H.
  assert (Some "3" = Some "5") as Habs; [|discriminate Habs].
  apply H; [lia|by eexists].
Qed.

(** C1 (amended).  [updateResultsFrom k R] reads [R] by document line:
    every existing row [i] with [k <= i < |R|] gets [R[i] || ""] in its
    result cell, every other row is left as it was, no row is added or
    removed, and [R] becomes [latestResults]. *)
Theorem updateResultsFrom_absolute (k : nat) (R : list JsStr) (s : State) (i : nat) :
  latestResults (updateResultsFrom k R s) = R ∧
  length (overlay (updateResultsFrom k R s)) = length (overlay s) ∧
  overlay (updateResultsFrom k R s) !! i =
    if decide (k ≤ i < length R)
    then (λ row, OverlayRow.mk (OverlayRow.number row) (orEmpty (mjoin (R !! i))))
           <$> overlay s !! i
    else overlay s !! i.
Proof.
  unfold updateResultsFrom; simpl. split; [done|]. split.
  - apply updateResultsFrom_loop_length.
  - rewrite updateResultsFrom_loop_lookup by lia. reflexivity.
Qed.

(** C3.  [updateResultsFrom k R] leaves every row of index below [k] as
    it was, whatever the row showed and whatever [R] holds. *)
Theorem updateResultsFrom_frame (k : nat) (R : list JsStr) (s : State) (i : nat) :
  i < k → overlay (updateResultsFrom k R s) !! i = overlay s !! i.
Proof.
  intros Hi. unfold updateResultsFrom; simpl.
  rewrite updateResultsFrom_loop_lookup by lia.
  destruct (decide (k ≤ i < length R)); [lia|done].
Qed.

Lemma updateResultsFrom_frame_witness :
  0 < 1 ∧
  overlay (updateResultsFrom 1 [Some "9"; Some "8"; Some "7"] threeLines) !! 0
    = overlay threeLines !! 0.
Proof.
  split; [lia|].
  apply (updateResultsFrom_frame 1 [Some "9"; Some "8"; Some "7"] threeLines 0). lia.
Defined.

(** ** Error log *)

Lemma logError_errorLogs (message type : string) (lineNo : option nat)
  (now : string) (s : State) :
  errorLogs (logError message type lineNo now s) =
    let logs := errorLogs s ++ [ErrorEntry.mk now type message lineNo] in
    if decide (100 < length logs) then drop 1 logs else logs.
Proof. reflexivity. Qed.

Lemma logError_last (message type : string) (lineNo : option nat)
  (now : string) (s : State) :
  last (errorLogs (logError message type lineNo now s))
    = Some (ErrorEntry.mk now type message lineNo).
Proof.
  rewrite logError_errorLogs. cbv zeta. case_decide as Hlen.
  - rewrite length_app in Hlen. simpl in Hlen.
    rewrite drop_app_le by lia. apply last_snoc.
  - apply last_snoc.
Qed.

Lemma logAll_errorLogs (entries : list ErrorEntry.t) :
  ∀ s, length (errorLogs s) ≤ 100 →
    errorLogs (logAll entries s) =
      drop (length (errorLogs s ++ entries) - 100) (errorLogs s ++ entries).
Proof.
  unfold logAll.
  induction entries as [|e entries IH]; intros s Hcap; simpl.
  - rewrite app_nil_r. replace (length (errorLogs s) - 100) with 0 by lia. done.
  - rewrite IH.
    + rewrite logError_errorLogs. cbv zeta. destruct e as [ts ty msg ln]; simpl.
      case_decide as Hlen; rewrite length_app in Hlen; simpl in Hlen.
      * set (e := ErrorEntry.mk ts ty msg ln).
        assert (drop 1 (errorLogs s ++ [e]) ++ entries
                = drop 1 (errorLogs s ++ e :: entries)) as Hd.
        { rewrite (cons_middle e (errorLogs s) entries), (assoc (++)).
          symmetry. apply drop_app_le. rewrite length_app. simpl. lia. }
        rewrite Hd, drop_drop, length_drop. f_equal.
        rewrite length_app. simpl. lia.
      * rewrite <-(assoc (++)). simpl. done.
    + rewrite logError_errorLogs. cbv zeta. case_decide as Hlen.
      * rewrite length_drop, length_app. simpl. lia.
      * lia.
Qed.

(** C7.  [logError] puts the new entry last; a log of fewer than 100
    entries only grows by it, a log of 100 or more loses its oldest entry;
    so a log within the cap stays within it, a full log stays at 100, and
    N entries logged from an empty log leave exactly the last 100 of them
    (101 entries: all but the first). *)
Theorem logError_ring_buffer (message type : string) (lineNo : option nat)
  (now : string) (s : State) (entries : list ErrorEntry.t) :
  let e := ErrorEntry.mk now type message lineNo in
  let logs' := errorLogs (logError message type lineNo now s) in
  last logs' = Some e ∧
  (length (errorLogs s) < 100 → logs' = errorLogs s ++ [e]) ∧
  (100 ≤ length (errorLogs s) → logs' = drop 1 (errorLogs s) ++ [e]) ∧
  (length (errorLogs s) ≤ 100 → length logs' ≤ 100) ∧
  (length (errorLogs s) = 100 → length logs' = 100) ∧
  errorLogs (logAll entries (set_errorLogs [] s)) = drop (length entries - 100) entries ∧
  (length entries = 101 → errorLogs (logAll entries (set_errorLogs [] s)) = drop 1 entries).
Proof.
  cbv zeta. rewrite logError_errorLogs. cbv zeta.
  set (e := ErrorEntry.mk now type message lineNo).
  assert (errorLogs (logAll entries (set_errorLogs [] s))
          = drop (length entries - 100) entries) as Hall.
  { rewrite logAll_errorLogs; simpl; [done|lia]. }
  case_decide as Hlen; rewrite length_app in Hlen; simpl in Hlen.
  - assert (drop 1 (errorLogs s ++ [e]) = drop 1 (errorLogs s) ++ [e]) as Hdrop.
    { rewrite drop_app_le; [done|lia]. }
    rewrite Hdrop. split_and!.
    + apply last_snoc.
    + intros; lia.
    + done.
    + intros. rewrite length_app, length_drop. simpl. lia.
    + intros. rewrite length_app, length_drop. simpl. lia.
    + done.
    + intros H101. rewrite Hall, H101. done.
  - split_and!.
    + apply last_snoc.
    + done.
    + intros; lia.
    + intros. rewrite length_app. simpl. lia.
    + intros; lia.
    + done.
    + intros H101. rewrite Hall, H101. done.
Qed.

Example logError_101st :
  let entries := (λ n, ErrorEntry.mk "t" "client" (JsString.of_nat n) None) <$> seq 0 101 in
  let logs := errorLogs (logAll entries (initial "")) in
  length logs = 100
  ∧ head logs = Some (ErrorEntry.mk "t" "client" "1" None)
  ∧ last logs = Some (ErrorEntry.mk "t" "client" "100" None).
Proof. vm_compute. done. Qed.

(** ** Evaluation client: failed rounds *)

(** C9 (as stated, refuted).  A response with a failure status whose body
    is not JSON (an HTML error page) makes [response.json()] reject: the
    [catch] block runs and the entry is tagged [network]. *)
Lemma nonSuccess_not_always_api :
  nonSuccess (BodyRejected false "Unexpected token '<'") = true
  ∧ ¬ logs_api_entry ["1+1"] 0 (BodyRejected false "Unexpected token '<'")
        "t1" (bootstrap "1+1").
Proof.
  split; [reflexivity|]. unfold logs_api_entry. vm_compute. discriminate.
Qed.

(** A failure response whose body is [null]: reading [data.error]
    throws, and the entry is tagged [network] as well. *)
Example null_body_logs_network :
  nonSuccess (RespondedNull false) = true
  ∧ ErrorEntry.type <$>
      last (errorLogs (evaluateLines_resume ["1+1"] 0 (RespondedNull false) "t1"
                         (bootstrap "1+1")))
    = Some "network".
Proof. vm_compute. done. Qed.

(** C9 (amended).  When a response with a failure status carries a JSON
    body other than [null], the overlay, [latestResults] and every page
    record (so every stored context) stay as they were, the status shows
    [data.error] or, when that is missing or empty, "Evaluation failed",
    and the log changes as by one [logError] call tagged [api] with that
    message.  When no response arrives, when the body of a response cannot
    be parsed, or when it parses to [null], whatever the status, display,
    results and pages stay as they were as well, the status shows
    "Evaluation failed", and the one entry logged is tagged [network] and
    holds the error text after "Network error: ". *)
Theorem evaluateLines_failure (lines : list string) (k : nat) (data : Payload.t)
  (ok : bool) (message now : string) (s : State) :
  let rejected := evaluateLines_resume lines k (Responded false data) now s in
  let dropped := evaluateLines_resume lines k (FetchRejected message) now s in
  let garbled := evaluateLines_resume lines k (BodyRejected ok message) now s in
  let nulled := evaluateLines_resume lines k (RespondedNull ok) now s in
  let networkMsg := "Network error: " +:+ message in
  let nullMsg := "Network error: " +:+ readOfNull (if ok then "results" else "error") in
  (overlay rejected = overlay s ∧ latestResults rejected = latestResults s ∧
   pages rejected = pages s ∧
   status rejected = errorMsgOf data ∧
   (∀ m, Payload.error data = Some m → m ≠ "" → status rejected = m) ∧
   (Payload.error data = None ∨ Payload.error data = Some "" →
    status rejected = "Evaluation failed") ∧
   errorLogs rejected = errorLogs (logError (errorMsgOf data) "api" None now s) ∧
   last (errorLogs rejected) = Some (ErrorEntry.mk now "api" (errorMsgOf data) None))
  ∧ (overlay dropped = overlay s ∧ latestResults dropped = latestResults s ∧
     pages dropped = pages s ∧
     status dropped = "Evaluation failed" ∧
     errorLogs dropped = errorLogs (logError networkMsg "network" None now s) ∧
     last (errorLogs dropped) = Some (ErrorEntry.mk now "network" networkMsg None))
  ∧ garbled = dropped
  ∧ (overlay nulled = overlay s ∧ latestResults nulled = latestResults s ∧
     pages nulled = pages s ∧
     status nulled = "Evaluation failed" ∧
     errorLogs nulled = errorLogs (logError nullMsg "network" None now s) ∧
     last (errorLogs nulled) = Some (ErrorEntry.mk now "network" nullMsg None)).
Proof.
  cbv zeta. split_and!; try reflexivity; try (destruct ok; reflexivity).
  - intros m Hm Hne. simpl. unfold errorMsgOf. rewrite Hm. simpl.
    destruct (String.eqb_spec m ""); [done|reflexivity].
  - intros [Hm|Hm]; simpl; unfold errorMsgOf; rewrite Hm; reflexivity.
  - apply (logError_last (errorMsgOf data) "api" None now).
  - apply (logError_last ("Network error: " +:+ message) "network" None now).
  - destruct ok;
      [apply (logError_last ("Network error: " +:+ readOfNull "results") "network" None now)
      |apply (logError_last ("Network error: " +:+ readOfNull "error") "network" None now)].
Qed.

(** ** Page registry *)

Section PageList.
Variable pageId : option nat.
Variable f : Page.t → Page.t.
Hypothesis f_id : ∀ p, Page.id (f p) = Page.id p.

Lemma findPage_updatePage_eq (ps : list Page.t) :
  findPage pageId (updatePage pageId f ps) = f <$> findPage pageId ps.
Proof using f_id.
  unfold findPage. induction ps as [|p ps IH]; simpl; [done|].
  case_bool_decide as Hp; simpl.
  - rewrite f_id. by rewrite bool_decide_eq_true_2.
  - rewrite bool_decide_eq_false_2 by done. exact IH.
Qed.

Lemma findPage_updatePage_ne (other : option nat) (ps : list Page.t) :
  other ≠ pageId →
  findPage other (updatePage pageId f ps) = findPage other ps.
Proof using f_id.
  intros Hne. unfold findPage. induction ps as [|p ps IH]; simpl; [done|].
  case_bool_decide as Hp; simpl.
  - rewrite f_id. rewrite !bool_decide_eq_false_2; [done|congruence..].
  - case_bool_decide; [done|exact IH].
Qed.

Lemma updatePage_ids (ps : list Page.t) :
  Page.id <$> updatePage pageId f ps = Page.id <$> ps.
Proof using f_id.
  induction ps as [|p ps IH]; cbn [updatePage]; [done|].
  case_bool_decide; rewrite !fmap_cons; [by rewrite f_id|by rewrite IH].
Qed.

Lemma updatePage_Forall (P : Page.t → Prop) (ps : list Page.t) :
  (∀ p, P p → P (f p)) → Forall P ps → Forall P (updatePage pageId f ps).
Proof.
  intros HP. induction 1 as [|p ps Hp Hps IH]; simpl; [constructor|].
  case_bool_decide; constructor; auto.
Qed.

Lemma updatePage_elem (q : Page.t) (ps : list Page.t) :
  q ∈ updatePage pageId f ps → q ∈ ps ∨ ∃ p, p ∈ ps ∧ q = f p.
Proof.
  induction ps as [|p ps IH]; simpl; [by left|].
  case_bool_decide.
  - intros [->|Hq]%elem_of_cons.
    + right. exists p. split; [left|done].
    + left. by right.
  - intros [->|Hq]%elem_of_cons; [left; left|].
    destruct (IH Hq) as [Hin|(p' & Hin & ->)]; [left; by right|].
    right. exists p'. split; [by right|done].
Qed.

Lemma updatePage_absent (ps : list Page.t) :
  (∀ p, p ∈ ps → Some (Page.id p) ≠ pageId) → updatePage pageId f ps = ps.
Proof.
  induction ps as [|p ps IH]; simpl; intros Habs; [done|].
  rewrite bool_decide_eq_false_2 by (apply Habs; left).
  f_equal. apply IH. intros q Hq. apply Habs. by right.
Qed.
End PageList.

Lemma findPage_Some (pageId : option nat) (ps : list Page.t) (p : Page.t) :
  findPage pageId ps = Some p → p ∈ ps ∧ Some (Page.id p) = pageId.
Proof.
  unfold findPage. intros H. apply find_some in H as [Hin Hp].
  split; [by apply list_elem_of_In|]. by apply bool_decide_eq_true_1 in Hp.
Qed.


Example finish_blank :
  Page.name <$> pages (finish 0 "   " true (bootstrap "")) = ["Main"].
Proof. reflexivity. Qed.

Example finish_trimmed :
  Page.name <$> pages (finish 0 "  Totals " true (bootstrap "")) = ["Totals"].
Proof. reflexivity. Qed.

(** C8.  [switchToPage B] first runs [saveCurrentPage]: the record of the
    active page [A] receives the editor text and a copy of
    [latestResults]; only then [B] becomes the active page and its stored
    content and results are loaded into the editor, [previousLines],
    [latestResults] and the overlay. *)
Theorem switchToPage_persists_then_loads (s : State) (A B : nat) (pa : Page.t) :
  currentPageId s = Some A →
  findPage (Some A) (pages s) = Some pa →
  let saved := saveCurrentPage s in
  let s' := switchToPage B s in
  s' = activatePage B saved ∧
  findPage (Some A) (pages saved)
    = Some (Page.mk (Page.id pa) (Page.name pa) (editor_value s)
              (Some (latestResults s)) (Page.context pa)) ∧
  currentPageId saved = Some A ∧
  pages s' = pages saved ∧
  currentPageId s' = Some B ∧
  (∀ pb, findPage (Some B) (pages saved) = Some pb →
     editor_value s' = Page.content pb ∧
     previousLines s' = JsString.split_newline (Page.content pb) ∧
     latestResults s' = default [] (Page.results pb) ∧
     overlay s' =
       imap (fun index _ =>
               OverlayRow.mk (JsString.padStart2 (JsString.of_nat (index + 1)))
                 (orEmpty (mjoin (default [] (Page.results pb) !! index))))
            (JsString.split_newline (Page.content pb))) ∧
  (A ≠ B → findPage (Some B) (pages saved) = findPage (Some B) (pages s)).
Proof.
  intros Hcur Hpa. cbv zeta.
  assert (∀ p, Page.id (Page.with_results (Some (latestResults s))
                         (Page.with_content (editor_value s) p)) = Page.id p)
    as Hid by done.
  split_and!.
  - reflexivity.
  - unfold saveCurrentPage. simpl. rewrite Hcur.
    rewrite findPage_updatePage_eq by exact Hid. rewrite Hpa. reflexivity.
  - exact Hcur.
  - unfold switchToPage, activatePage. simpl.
    destruct (findPage (Some B) _); reflexivity.
  - unfold switchToPage, activatePage. simpl.
    destruct (findPage (Some B) _); reflexivity.
  - intros pb Hpb. unfold switchToPage, activatePage. simpl.
    unfold saveCurrentPage in Hpb. simpl in Hpb. rewrite Hpb. simpl. done.
  - intros Hne. unfold saveCurrentPage. simpl. rewrite Hcur.
    apply findPage_updatePage_ne; [exact Hid|congruence].
Qed.

Lemma switchToPage_persists_then_loads_witness :
  Page.content <$> pages (switchToPage 0 twoPages) = ["x = 2"; "y = 3"]
  ∧ editor_value (switchToPage 0 twoPages) = "x = 2"
  ∧ currentPageId (switchToPage 0 twoPages) = Some 0.
Proof.
  pose proof (switchToPage_persists_then_loads twoPages 1 0
                (Page.mk 1 "Page2" "" (Some []) (Some ∅)) eq_refl eq_refl) as H.
  cbv zeta in H. destruct H as (_ & _ & _ & _ & Hcur & Hload & _).
  split; [reflexivity|]. split; [|exact Hcur].
  apply (Hload (Page.mk 0 "Main" "x = 2" (Some []) (Some ∅))). reflexivity.
Defined.

(** ** Invariant of the page registry *)

Lemma registryOk_update (pageId : option nat) (f : Page.t → Page.t)
  (ps : list Page.t) (cur : option nat) (cnt : nat) :
  (∀ p, Page.id (f p) = Page.id p) →
  (∀ p, is_Some (Page.results p) → is_Some (Page.results (f p))) →
  registryOk ps cur cnt → registryOk (updatePage pageId f ps) cur cnt.
Proof.
  intros Hid Hres (Hne & Hnd & Hlt & Hrs & Hcur).
  unfold registryOk. rewrite updatePage_ids by done. split_and!.
  - intros Hnil. apply Hne. apply (f_equal (fmap Page.id)) in Hnil.
    rewrite updatePage_ids in Hnil by done. by apply fmap_nil_inv in Hnil.
  - done.
  - apply updatePage_Forall; [|done]. intros p. by rewrite Hid.
  - by apply updatePage_Forall.
  - done.
Qed.

Lemma registryOk_activate (pageId : nat) (ps : list Page.t) (cur : option nat)
  (cnt : nat) :
  pageId ∈ Page.id <$> ps → registryOk ps cur cnt → registryOk ps (Some pageId) cnt.
Proof.
  intros Hin (Hne & Hnd & Hlt & Hrs & _). split_and!; eauto.
Qed.

Lemma registryOk_push (name content : string) (rs : list JsStr)
  (ctx : option (gmap string json)) (ps : list Page.t) (cur : option nat) (cnt : nat) :
  registryOk ps cur cnt →
  registryOk (ps ++ [Page.mk cnt name content (Some rs) ctx]) cur (S cnt).
Proof.
  intros (Hne & Hnd & Hlt & Hrs & pid & Hcur & Hpid). split_and!.
  - by destruct ps.
  - rewrite fmap_app. apply NoDup_app. split_and!; [done| |apply NoDup_singleton].
    intros x Hx Hx'. simpl in Hx'.
    apply elem_of_cons in Hx' as [Heq|Hnil]; [|by apply elem_of_nil in Hnil].
    apply list_elem_of_fmap in Hx as (p & Hxp & Hp).
    rewrite Forall_forall in Hlt. specialize (Hlt p Hp). simpl in Hlt. lia.
  - apply Forall_app. split.
    + eapply Forall_impl; [exact Hlt|]. simpl. intros; lia.
    + repeat constructor.
  - apply Forall_app. split; [done|]. repeat constructor. by eexists.
  - exists pid. split; [done|]. rewrite fmap_app. apply elem_of_app. by left.
Qed.

Lemma findIndex_is_Some (pageId : nat) (ps : list Page.t) :
  is_Some (findIndex pageId ps) ↔ pageId ∈ Page.id <$> ps.
Proof.
  induction ps as [|p ps IH]; cbn [findIndex].
  - split; [by intros [? ?]|by intros ?%elem_of_nil].
  - rewrite fmap_cons, elem_of_cons. case_bool_decide as Hp.
    + split; [by left|by eexists].
    + rewrite <-IH, fmap_is_Some. split; [by right|]. intros [?|?]; [congruence|done].
Qed.

Lemma filter_all (P : Page.t → Prop) `{∀ p, Decision (P p)} (ps : list Page.t) :
  (∀ p, p ∈ ps → P p) → filter P ps = ps.
Proof.
  induction ps as [|p ps IH]; intros Hall; [done|].
  rewrite filter_cons_True by (apply Hall; left).
  f_equal. apply IH. intros q Hq. apply Hall. by right.
Qed.

(** With distinct ids, removing the page found by [findIndex] keeps
    exactly the pages of another id, in their order. *)
Lemma delete_findIndex (pageId : nat) (ps : list Page.t) :
  ∀ i, NoDup (Page.id <$> ps) → findIndex pageId ps = Some i →
       delete i ps = filter (λ p, Page.id p ≠ pageId) ps.
Proof.
  induction ps as [|p ps IH]; intros i Hnd Hi; cbn [findIndex] in Hi; [done|].
  rewrite fmap_cons in Hnd. apply NoDup_cons in Hnd as [Hp Hnd].
  case_bool_decide as Hid.
  - injection Hi as <-. simpl. rewrite filter_cons_False by (intros ?; done).
    symmetry. apply filter_all. intros q Hq Heq. apply Hp.
    rewrite Hid, <-Heq. by apply list_elem_of_fmap_2.
  - destruct (findIndex pageId ps) as [i'|] eqn:Hi'; [|done].
    injection Hi as <-. simpl. rewrite filter_cons_True by done.
    f_equal. by apply IH.
Qed.

Lemma registryOk_filter (pageId : nat) (ps : list Page.t) (cur : option nat) (cnt : nat) :
  registryOk ps cur cnt → 1 < length ps →
  let ps' := filter (λ p, Page.id p ≠ pageId) ps in
  ps' ≠ [] ∧
  NoDup (Page.id <$> ps') ∧
  Forall (λ p, Page.id p < cnt) ps' ∧
  Forall (λ p, is_Some (Page.results p)) ps' ∧
  (cur ≠ Some pageId → ∃ pid, cur = Some pid ∧ pid ∈ Page.id <$> ps').
Proof.
  intros (Hne & Hnd & Hlt & Hrs & pid & Hcur & Hpid) Hlen. cbv zeta.
  assert (filter (λ p, Page.id p ≠ pageId) ps `sublist_of` ps) as Hsub
    by apply sublist_filter.
  split_and!.
  - destruct ps as [|p [|q ps]]; simpl in Hlen; [lia..|].
    rewrite !fmap_cons in Hnd. apply NoDup_cons in Hnd as [Hpq _].
    destruct (decide (Page.id p = pageId)) as [Hp|Hp].
    + rewrite filter_cons_False by (intros ?; done).
      rewrite filter_cons_True; [done|].
      intros Hq. apply Hpq. rewrite Hp, <-Hq. left.
    + by rewrite filter_cons_True.
  - eapply sublist_NoDup; [exact Hnd|]. by apply fmap_sublist.
  - rewrite Forall_forall in *. intros p [_ Hp]%list_elem_of_filter. auto.
  - rewrite Forall_forall in *. intros p [_ Hp]%list_elem_of_filter. auto.
  - intros Hother. exists pid. split; [done|].
    apply list_elem_of_fmap in Hpid as (p & -> & Hp).
    apply list_elem_of_fmap_2, list_elem_of_filter. split; [congruence|done].
Qed.

Lemma switchToPage_registry (pageId : nat) (s : State) :
  pages (switchToPage pageId s) = pages (saveCurrentPage s) ∧
  currentPageId (switchToPage pageId s) = Some pageId ∧
  pageIdCounter (switchToPage pageId s) = pageIdCounter s.
Proof.
  unfold switchToPage, activatePage. simpl.
  destruct (findPage (Some pageId) _); done.
Qed.

Lemma saveCurrentPage_pages_ok (s : State) (cur : option nat) :
  registryOk (pages s) cur (pageIdCounter s) →
  registryOk (pages (saveCurrentPage s)) cur (pageIdCounter s).
Proof.
  intros Hok. unfold saveCurrentPage. simpl.
  apply registryOk_update; [done| |done]. intros p _. by eexists.
Qed.

Lemma switchToPage_ok (pageId : nat) (s : State) (cur : option nat) :
  registryOk (pages s) cur (pageIdCounter s) →
  pageId ∈ Page.id <$> pages s →
  PagesOk (switchToPage pageId s).
Proof.
  intros Hok Hin. unfold PagesOk.
  destruct (switchToPage_registry pageId s) as (-> & -> & ->).
  apply registryOk_activate with (cur := cur).
  - unfold saveCurrentPage. simpl. by rewrite updatePage_ids.
  - by apply saveCurrentPage_pages_ok.
Qed.

Lemma logResultErrors_registry (startIndex : nat) (now : string) :
  ∀ results idx s,
    pages (logResultErrors idx startIndex results now s) = pages s ∧
    currentPageId (logResultErrors idx startIndex results now s) = currentPageId s ∧
    pageIdCounter (logResultErrors idx startIndex results now s) = pageIdCounter s.
Proof.
  induction results as [|result results IH]; intros idx s; simpl; [done|].
  destruct (IH (S idx)
              (if truthy result && JsString.includes "Error:" (orEmpty result)
               then logError (orEmpty result) "evaluation"
                      (Some (idx + startIndex + 1)) now s
               else s)) as (-> & -> & ->).
  destruct (truthy result && JsString.includes "Error:" (orEmpty result)); done.
Qed.

Lemma evaluateLines_resume_ok (lines : list string) (startIndex : nat)
  (outcome : FetchOutcome) (now : string) (s : State) :
  PagesOk s → PagesOk (evaluateLines_resume lines startIndex outcome now s).
Proof.
  intros Hok. unfold PagesOk.
  destruct outcome as [message|ok message|[]|[] data]; try exact Hok.
  cbn [evaluateLines_resume].
  assert (registryOk
            (updatePage (currentPageId s)
               (Page.with_context (Some (default ∅ (Payload.context data))))
               (pages s))
            (currentPageId s) (pageIdCounter s)) as Hup.
  { apply registryOk_update; [done|by intros p Hp|done]. }
  destruct (Payload.results data) as [results|]; [|exact Hup].
  match goal with |- context [logResultErrors 0 startIndex results now ?t] =>
    destruct (logResultErrors_registry startIndex now results 0 t) as (-> & -> & ->)
  end.
  exact Hup.
Qed.

Lemma closeTab_ok (pageId : nat) (s : State) :
  PagesOk s → hasTab pageId s = true → PagesOk (closeTab pageId s).
Proof.
  intros Hok Htab. unfold closeTab.
  destruct (decide (1 < length (pages s))) as [Hlen|]; [|done].
  apply bool_decide_eq_true_1 in Htab as [i Hi].
  pose proof Hok as (_ & Hnd & _).
  rewrite Hi. cbn [splice1]. rewrite (delete_findIndex pageId _ i Hnd Hi).
  destruct (registryOk_filter pageId _ _ _ Hok Hlen) as (Hne & Hnd' & Hlt & Hrs & Hcur).
  cbn [currentPageId set_pages pages].
  destruct (decide (currentPageId s = Some pageId)) as [Hact|Hact].
  - destruct (filter _ (pages s)) as [|first rest] eqn:Hf; [done|].
    apply switchToPage_ok with (cur := Some (Page.id first)).
    + cbn [pages set_pages pageIdCounter]. split_and!; try done.
      exists (Page.id first). split; [done|]. rewrite fmap_cons. left.
    + cbn [pages set_pages]. rewrite fmap_cons. left.
  - unfold PagesOk. cbn [pages set_pages currentPageId pageIdCounter].
    split_and!; auto.
Qed.

Lemma bootstrap_ok (text : string) : PagesOk (bootstrap text).
Proof.
  unfold PagesOk, registryOk. simpl. split_and!.
  - done.
  - apply NoDup_singleton.
  - repeat constructor.
  - repeat constructor. by eexists.
  - exists 0. split; [done|]. left.
Qed.

Lemma step_ok (s : State) (e : Event) : PagesOk s → PagesOk (step s e).
Proof.
  intros Hok. destruct e as [text| |k outcome now| | | |pid|pid|pid v key| |errors|];
    cbn [step].
  - unfold scheduleEvaluation. destruct (_ =? _)%Z; exact Hok.
  - unfold debounceFire. destruct (debounceTimer s) as [[lines idx]|]; exact Hok.
  - destruct (suspended s !! k) as [[lines idx]|]; [|exact Hok].
    by apply evaluateLines_resume_ok.
  - exact Hok.
  - unfold clearClick. cbv zeta. unfold PagesOk, saveCurrentPage.
    cbn [pages set_pages currentPageId pageIdCounter set_editorInfo renderLines
         set_overlay set_latestResults set_previousLines set_editor_value].
    apply registryOk_update; [done| |exact Hok]. intros p _. by eexists.
  - unfold addTabClick, createPage. cbv zeta.
    apply switchToPage_ok with (cur := currentPageId s).
    + cbn [pages set_pages set_pageIdCounter pageIdCounter]. by apply registryOk_push.
    + cbn [pages set_pages set_pageIdCounter Page.id].
      rewrite fmap_app. apply elem_of_app. right. left.
  - destruct (hasTab pid s) eqn:Htab; [|exact Hok].
    apply switchToPage_ok with (cur := currentPageId s); [exact Hok|].
    apply findIndex_is_Some. by apply bool_decide_eq_true_1 in Htab.
  - destruct (hasTab pid s) eqn:Htab; [|exact Hok]. by apply closeTab_ok.
  - destruct (hasTab pid s); [|exact Hok].
    assert (PagesOk (finish pid v true s)) as Hfin.
    { unfold finish. destruct (true && _); [|exact Hok].
      unfold PagesOk. cbn [pages set_pages currentPageId pageIdCounter].
      apply registryOk_update; [done|by intros p Hp|exact Hok]. }
    destruct key; cbn [renameEvent]; [exact Hfin|exact Hfin|exact Hok].
  - exact Hok.
  - exact Hok.
  - exact Hok.
Qed.

Lemma run_ok (text : string) (evs : list Event) : PagesOk (run text evs).
Proof.
  unfold run. generalize (bootstrap_ok text). generalize (bootstrap text).
  induction evs as [|e evs IH]; intros s Hok; simpl; [done|].
  apply IH. by apply step_ok.
Qed.

(** ** Page lifecycle *)

Lemma closeTab_pages (pageId : nat) (s : State) :
  PagesOk s → hasTab pageId s = true → 1 < length (pages s) →
  pages (closeTab pageId s) = filter (λ p, Page.id p ≠ pageId) (pages s).
Proof.
  intros Hok Htab Hlen. unfold closeTab.
  destruct (decide (1 < length (pages s))); [|lia].
  apply bool_decide_eq_true_1 in Htab as [i Hi].
  pose proof Hok as (_ & Hnd & _).
  rewrite Hi. cbn [splice1]. rewrite (delete_findIndex pageId _ i Hnd Hi).
  cbn [currentPageId set_pages pages].
  destruct (decide (currentPageId s = Some pageId)) as [Hact|Hact]; [|done].
  destruct (filter _ (pages s)) as [|first rest] eqn:Hf; [done|].
  destruct (switchToPage_registry (Page.id first)
              (set_pages (first :: rest) s)) as (-> & _ & _).
  unfold saveCurrentPage. cbn [pages set_pages currentPageId]. rewrite Hact.
  apply updatePage_absent. intros p Hp Hid. rewrite <-Hf in Hp.
  apply list_elem_of_filter in Hp as [Hne _]. congruence.
Qed.

Lemma closeTab_active (pageId : nat) (s : State) (first : Page.t) (rest : list Page.t) :
  PagesOk s → currentPageId s = Some pageId → 1 < length (pages s) →
  filter (λ p, Page.id p ≠ pageId) (pages s) = first :: rest →
  closeTab pageId s = switchToPage (Page.id first) (set_pages (first :: rest) s).
Proof.
  intros Hok Hact Hlen Hf. unfold closeTab.
  destruct (decide (1 < length (pages s))); [|lia].
  assert (is_Some (findIndex pageId (pages s))) as [i Hi].
  { apply findIndex_is_Some.
    destruct Hok as (_ & _ & _ & _ & pid & Hcur & Hin). congruence. }
  pose proof Hok as (_ & Hnd & _).
  rewrite Hi. cbn [splice1]. rewrite (delete_findIndex pageId _ i Hnd Hi), Hf.
  cbn [currentPageId set_pages pages].
  destruct (decide (currentPageId s = Some pageId)); done.
Qed.

(** C6.  In every state the session can reach there is a page.  Closing
    a tab when there is only one page returns the state unchanged; closing
    the tab of a page that is not the active one keeps [currentPageId];
    closing the tab of the active page leaves the other pages in their
    order and makes the first of them the active page, its content loaded
    into the editor. *)
Theorem closeTab_lifecycle (text : string) (evs : list Event) (pageId : nat) :
  let s := run text evs in
  let s' := closeTab pageId s in
  let remaining := filter (λ p, Page.id p ≠ pageId) (pages s) in
  pages s ≠ [] ∧
  pages s' ≠ [] ∧
  (length (pages s) = 1 → s' = s) ∧
  (currentPageId s ≠ Some pageId → currentPageId s' = currentPageId s) ∧
  (hasTab pageId s = true → 1 < length (pages s) → pages s' = remaining) ∧
  (currentPageId s = Some pageId → 1 < length (pages s) →
     ∃ first, head remaining = Some first ∧
              pages s' = remaining ∧
              currentPageId s' = Some (Page.id first) ∧
              editor_value s' = Page.content first).
Proof.
  cbv zeta. pose proof (run_ok text evs) as Hok.
  set (s := run text evs) in *.
  assert (currentPageId s = Some pageId → hasTab pageId s = true) as Hact_tab.
  { intros Hact. apply bool_decide_eq_true_2, findIndex_is_Some.
    destruct Hok as (_ & _ & _ & _ & pid & Hcur & Hin). congruence. }
  split_and!.
  - apply Hok.
  - destruct (hasTab pageId s) eqn:Htab.
    + apply (closeTab_ok pageId s Hok Htab).
    + unfold closeTab.
      destruct (decide (1 < length (pages s))) as [Hlen|]; [|apply Hok].
      destruct (decide (currentPageId (set_pages _ s) = Some pageId)) as [Hact|Hact].
      * cbn [currentPageId set_pages] in Hact. by specialize (Hact_tab Hact).
      * cbn [pages set_pages].
        assert (findIndex pageId (pages s) = None) as ->.
        { apply bool_decide_eq_false_1 in Htab.
          destruct (findIndex pageId (pages s)); [|done]. exfalso. apply Htab. by eexists. }
        cbn [splice1]. destruct (pages s) as [|p [|q ps]]; simpl in *; (lia || done).
  - intros Hlen. unfold closeTab.
    destruct (decide (1 < length (pages s))); [lia|done].
  - intros Hother. unfold closeTab.
    destruct (decide (1 < length (pages s))); [|done].
    cbn [currentPageId set_pages].
    destruct (decide (currentPageId s = Some pageId)); done.
  - intros Htab Hlen. by apply closeTab_pages.
  - intros Hact Hlen. pose proof (Hact_tab Hact) as Htab.
    pose proof (closeTab_pages pageId s Hok Htab Hlen) as Hpages.
    destruct (registryOk_filter pageId _ _ _ Hok Hlen) as (Hne & _).
    destruct (filter (λ p, Page.id p ≠ pageId) (pages s)) as [|first rest] eqn:Hf; [done|].
    exists first. split_and!; [done|exact Hpages|..];
      rewrite (closeTab_active pageId s first rest Hok Hact Hlen Hf);
      [apply switchToPage_registry|].
    assert (findPage (Some (Page.id first))
              (pages (saveCurrentPage (set_pages (first :: rest) s)))
            = Some first) as Hfind.
    { unfold saveCurrentPage. cbn [pages set_pages currentPageId]. rewrite Hact.
      rewrite updatePage_absent.
      - unfold findPage. cbn [find]. by rewrite bool_decide_eq_true_2.
      - intros p Hp Hid. rewrite <-Hf in Hp.
        apply list_elem_of_filter in Hp as [Hne' _]. congruence. }
    unfold switchToPage, activatePage. cbn [pages set_currentPageId].
    rewrite Hfind. reflexivity.
Qed.

Example closeTab_last_page : closeTab 0 (bootstrap "1+1") = bootstrap "1+1".
Proof. vm_compute. reflexivity. Qed.

Example closeTab_active_example :
  currentPageId (closeTab 1 twoPages) = Some 0
  ∧ Page.name <$> pages (closeTab 1 twoPages) = ["Main"].
Proof. vm_compute. done. Qed.

(** ** A session from start to first edit *)

(** Lines "x = 2" and "x + 3" are evaluated from index 0; then line 0 is
    edited to "x = 10" and the cascade starts again at index 0. *)
Example session_cascade :
  let text := "x = 2" +:+ String "010" "x + 3" in
  let text' := "x = 10" +:+ String "010" "x + 3" in
  let s1 := run text
              [EvaluateSettled 0
                 (Responded true
                    (Payload.mk (Some [Some ""; Some "5"])
                       (Some {[ "x" := JNum "2" ]}) None)) "t0"] in
  let s2 := step (step s1 (EditorInput text')) DebounceFire in
  OverlayRow.result <$> overlay s1 = [""; "5"]
  ∧ Page.context <$> pages s1 = [Some {[ "x" := JNum "2" ]}]
  ∧ status s1 = "Ready"
  ∧ last (sent s2) = Some (EvaluateRequest ["x = 10"; "x + 3"] 0 ∅).
Proof. vm_compute. done. Qed.

(** ** Cross-page context snapshot *)









Example snapshot_after_add :
  allPagesContext (run "" [AddTabClick; TabClick 0]) = {[ "Page2" := ∅ ]}.
Proof. vm_compute. reflexivity. Qed.

(** A page renamed [__proto__] has no entry in the snapshot of another
    page. *)
Example snapshot_without_proto_page :
  let s := run "" [AddTabClick; TabRename 1 "__proto__" Enter; TabClick 0] in
  Page.name <$> pages s = ["Main"; "__proto__"]
  ∧ allPagesContext s = ∅.
Proof. vm_compute. done. Qed.

(** Two pages named [__proto__], the first with a context that has a key
    [__proto__]: the second assignment finds the property on the
    prototype and writes an entry. *)
Example snapshot_with_proto_entry :
  let s := run ""
             [AddTabClick;
              EvaluateSettled 0
                (Responded true
                   (Payload.mk (Some []) (Some {[ "__proto__" := JNum "1" ]}) None))
                "t0";
              TabRename 1 "__proto__" Enter;
              AddTabClick;
              TabRename 2 "__proto__" Enter;
              TabClick 0] in
  Page.name <$> pages s = ["Main"; "__proto__"; "__proto__"]
  ∧ allPagesContext s = {[ "__proto__" := ∅ ]}.
Proof. vm_compute. done. Qed.


(** * Further properties of the script *)

(** ** Lines of a text *)

Lemma split_newline_nonempty (s : string) : JsString.split_newline s ≠ [].
Proof.
  destruct s as [|c rest]; simpl; [done|].
  destruct (Ascii.eqb c "010"); [done|].
  destruct (JsString.split_newline rest); done.
Qed.

(** Joining the lines with newlines gives the text back. *)
Lemma split_newline_join (s : string) :
  String.concat (String "010" "") (JsString.split_newline s) = s.
Proof.
  induction s as [|c rest IH]; [done|]. cbn [JsString.split_newline].
  pose proof (split_newline_nonempty rest) as Hne.
  destruct (Ascii.eqb_spec c "010") as [->|Hc].
  - destruct (JsString.split_newline rest) as [|l ls]; [done|].
    change (String "010" (String.concat (String "010" "") (l :: ls))
            = String "010" rest).
    by rewrite IH.
  - destruct (JsString.split_newline rest) as [|l ls]; [done|].
    destruct ls as [|l' ls]; rewrite <-IH; reflexivity.
Qed.

Lemma string_app_length (a b : string) :
  String.length (a +:+ b) = String.length a + String.length b.
Proof. induction a as [|c a IH]; simpl; [done|by rewrite IH]. Qed.

(** Text appended after a newline adds its lines after the old ones. *)
Lemma split_newline_app_line (a b : string) :
  JsString.split_newline (a +:+ String "010" b)
    = JsString.split_newline a ++ JsString.split_newline b.
Proof.
  induction a as [|c a IH]; [done|]. simpl.
  destruct (Ascii.eqb c "010"); [by rewrite IH|].
  rewrite IH. pose proof (split_newline_nonempty a) as Hne.
  destruct (JsString.split_newline a); done.
Qed.

(** Appended text leaves every line but the last one as it was. *)
Lemma split_newline_app_lookup (b : string) :
  ∀ a j, S j < length (JsString.split_newline a) →
    JsString.split_newline (a +:+ b) !! j = JsString.split_newline a !! j.
Proof.
  induction a as [|c a IH]; intros j Hj; [simpl in Hj; lia|].
  change (String c a +:+ b) with (String c (a +:+ b)).
  cbn [JsString.split_newline] in *.
  pose proof (split_newline_nonempty (a +:+ b)) as Hne'.
  destruct (Ascii.eqb c "010").
  - destruct j as [|j]; [done|]. cbn [length] in Hj.
    rewrite !lookup_cons_ne_0 by done. apply IH. simpl. lia.
  - destruct (JsString.split_newline a) as [|l ls] eqn:Ha;
      [by destruct (split_newline_nonempty a)|].
    destruct (JsString.split_newline (a +:+ b)) as [|l' ls'] eqn:Hab; [done|].
    cbn [length] in Hj. destruct j as [|j].
    + assert (Some l' = Some l) as [= ->] by (apply (IH 0); simpl; lia). done.
    + apply (IH (S j)). simpl. lia.
Qed.

(** ** Change detector: range and edits at the end *)

Lemma getChangedLineIndex_least (C : list string) (s : State) (k : nat) :
  previousLines s !! k ≠ C !! k →
  (∀ j, j < k → previousLines s !! j = C !! j) →
  getChangedLineIndex C s = Z.of_nat k.
Proof.
  intros Hd Hmin.
  destruct (getChangedLineIndex_cases C s) as [[_ Heq]|(k' & -> & Hd' & Hmin')].
  - by rewrite Heq in Hd.
  - f_equal. destruct (Nat.lt_total k k') as [Hlt|[->|Hlt]]; [|done|].
    + by specialize (Hmin' k Hlt).
    + by specialize (Hmin k' Hlt).
Qed.

Lemma getChangedLineIndex_tail_edits_aux (P Q : list string) (s : State) :
  (previousLines s = P → Q ≠ [] →
     getChangedLineIndex (P ++ Q) s = Z.of_nat (length P)) ∧
  (previousLines s = P ++ Q → Q ≠ [] →
     getChangedLineIndex P s = Z.of_nat (length P)).
Proof.
  split; intros HP HQ; apply getChangedLineIndex_least; rewrite HP.
  - rewrite lookup_ge_None_2 by done. rewrite lookup_app_r by done.
    rewrite Nat.sub_diag. destruct Q; done.
  - intros j Hj. by rewrite lookup_app_l.
  - rewrite (lookup_ge_None_2 P) by done. rewrite lookup_app_r by done.
    rewrite Nat.sub_diag. destruct Q; done.
  - intros j Hj. by rewrite lookup_app_l.
Qed.

(** X1.  The change detector answers -1 or an index below the length of
    the longer array.  When lines are only appended at the end it answers
    the index of the first new line, and when lines are only removed from
    the end the index of the first missing one. *)
Theorem getChangedLineIndex_tail_edits (P Q : list string) (C : list string) (s : State) :
  (getChangedLineIndex C s = (-1)%Z
   ∨ (0 ≤ getChangedLineIndex C s
        < Z.of_nat (Nat.max (length C) (length (previousLines s))))%Z) ∧
  (previousLines s = P → Q ≠ [] →
     getChangedLineIndex (P ++ Q) s = Z.of_nat (length P)) ∧
  (previousLines s = P ++ Q → Q ≠ [] →
     getChangedLineIndex P s = Z.of_nat (length P)).
Proof.
  split_and!.
  - unfold getChangedLineIndex.
    destruct (getChangedLineIndex_loop_spec C (previousLines s)
                (Nat.max (length C) (length (previousLines s))) 0)
      as [[-> _]|(k & -> & Hk & _)]; [intros j Hj; lia|by left|right; lia].
  - apply getChangedLineIndex_tail_edits_aux.
  - apply getChangedLineIndex_tail_edits_aux.
Qed.

(** ** Scheduler: what an edit commits *)

Lemma scheduleEvaluation_changed (s : State) :
  JsString.split_newline (editor_value s) ≠ previousLines s →
  ∃ k, getChangedLineIndex (JsString.split_newline (editor_value s)) s = Z.of_nat k ∧
       scheduleEvaluation s =
         set_debounceTimer (Some (JsString.split_newline (editor_value s), k))
           (renderLines (JsString.split_newline (editor_value s))
              (set_previousLines (JsString.split_newline (editor_value s)) s)).
Proof.
  intros Hne. unfold scheduleEvaluation.
  destruct (getChangedLineIndex_cases (JsString.split_newline (editor_value s)) s)
    as [[_ Heq]|(k & Hk & _)]; [done|].
  exists k. split; [done|]. rewrite Hk.
  destruct (Z.of_nat k =? -1)%Z eqn:Hz; [lia|]. by rewrite Nat2Z.id.
Qed.

Lemma scheduleEvaluation_same (s : State) :
  JsString.split_newline (editor_value s) = previousLines s →
  scheduleEvaluation s = s.
Proof.
  intros Heq. unfold scheduleEvaluation.
  destruct (getChangedLineIndex_cases (JsString.split_newline (editor_value s)) s)
    as [[Hr _]|(k & _ & Hd & _)]; [by rewrite Hr|by rewrite Heq in Hd].
Qed.

(** X2.  When the lines of the editor differ from the committed ones,
    [scheduleEvaluation] commits them as [previousLines], rebuilds the
    overlay with one row per line, arms the timer with these lines and the
    least index at which they differ from the lines committed before, and
    sends nothing; calling it again right away changes nothing more. *)
Theorem scheduleEvaluation_commits (s : State) :
  JsString.split_newline (editor_value s) ≠ previousLines s →
  let lines := JsString.split_newline (editor_value s) in
  let s' := scheduleEvaluation s in
  previousLines s' = lines ∧
  length (overlay s') = length lines ∧
  (∃ k, debounceTimer s' = Some (lines, k) ∧
        previousLines s !! k ≠ lines !! k ∧
        ∀ j, j < k → previousLines s !! j = lines !! j) ∧
  sent s' = sent s ∧ suspended s' = suspended s ∧
  pages s' = pages s ∧ latestResults s' = latestResults s ∧
  scheduleEvaluation s' = s'.
Proof.
  intros Hne. cbv zeta.
  destruct (scheduleEvaluation_changed s Hne) as (k & Hk & ->).
  split_and!; try reflexivity.
  - unfold renderLines. cbn [overlay set_debounceTimer set_overlay].
    by rewrite length_imap.
  - exists k. split; [reflexivity|].
    destruct (getChangedLineIndex_cases (JsString.split_newline (editor_value s)) s)
      as [[_ Heq]|(k' & Hk' & Hd & Hmin)]; [done|].
    assert (k' = k) as -> by lia. done.
  - by apply scheduleEvaluation_same.
Qed.

Lemma scheduleEvaluation_commits_witness :
  previousLines (scheduleEvaluation (set_editor_value "x = 10" (bootstrap "x = 2")))
    = ["x = 10"].
Proof.
  apply (scheduleEvaluation_commits (set_editor_value "x = 10" (bootstrap "x = 2"))).
  vm_compute. discriminate.
Defined.

(** ** Scheduler: bursts of edits *)

(** What one input event does to the parts of the state a burst is
    judged by. *)
Lemma editorInput_effect (t : string) (s : State) :
  let s' := step s (EditorInput t) in
  sent s' = sent s ∧ suspended s' = suspended s ∧
  pages s' = pages s ∧ currentPageId s' = currentPageId s ∧
  previousLines s' = JsString.split_newline t ∧
  (debounceTimer s' = debounceTimer s
   ∨ ∃ k, debounceTimer s' = Some (JsString.split_newline t, k)).
Proof.
  cbv zeta. cbn [step].
  destruct (decide (JsString.split_newline t = previousLines s)) as [Heq|Hne].
  - rewrite scheduleEvaluation_same by done. split_and!; try done. by left.
  - destruct (scheduleEvaluation_changed (set_editor_value t s) Hne) as (k & _ & ->).
    split_and!; try reflexivity. right. by exists k.
Qed.

Lemma burst_effect (texts : list string) :
  ∀ s, (debounceTimer s = None ∨ ∃ k, debounceTimer s = Some (previousLines s, k)) →
    sent (burst texts s) = sent s ∧ suspended (burst texts s) = suspended s ∧
    pages (burst texts s) = pages s ∧
    currentPageId (burst texts s) = currentPageId s ∧
    (debounceTimer (burst texts s) = None
     ∨ ∃ k, debounceTimer (burst texts s) = Some (previousLines (burst texts s), k)) ∧
    (∀ t, last texts = Some t → previousLines (burst texts s) = JsString.split_newline t).
Proof.
  unfold burst. induction texts as [|t texts IH]; intros s Htimer.
  - split_and!; try done.
  - rewrite fmap_cons. cbn [foldl].
    destruct (editorInput_effect t s) as (Hsent & Hsusp & Hpages & Hcur & Hprev & Ht).
    cbv zeta in *.
    destruct (IH (step s (EditorInput t))) as (-> & -> & -> & -> & Htimer' & Hlast).
    { destruct Ht as [Hsame|[k Hk]].
      - rewrite Hsame. destruct Htimer as [?|[k Hk]]; [by left|].
        right. exists k. rewrite Hk. f_equal. f_equal.
        cbn [step]. destruct (decide (JsString.split_newline t = previousLines s)) as [Heq|Hne].
        + by rewrite scheduleEvaluation_same.
        + destruct (scheduleEvaluation_changed (set_editor_value t s) Hne) as (k' & _ & Hs).
          cbn [step] in Hsame. rewrite Hs in Hsame. cbn in Hsame.
          rewrite Hk in Hsame. injection Hsame as <- _. rewrite <-Hprev. done.
      - right. exists k. by rewrite Hprev. }
    split_and!; try done.
    intros t' Hlast'. destruct texts as [|t2 texts].
    + injection Hlast' as <-. exact Hprev.
    + apply Hlast. exact Hlast'.
Qed.

Lemma debounceFire_twice (s : State) :
  debounceFire (debounceFire s) = debounceFire s.
Proof.
  destruct (debounceTimer s) as [[lines k]|] eqn:Ht.
  - assert (debounceFire s = evaluateLines_begin lines k (set_debounceTimer None s))
      as -> by (unfold debounceFire; by rewrite Ht).
    reflexivity.
  - assert (debounceFire s = s) as -> by (unfold debounceFire; by rewrite Ht).
    unfold debounceFire. by rewrite Ht.
Qed.

Lemma burst_cons (t : string) (texts : list string) (s : State) :
  burst (t :: texts) s = burst texts (step s (EditorInput t)).
Proof. reflexivity. Qed.

Lemma burst_snoc (texts : list string) (t : string) (s : State) :
  burst (texts ++ [t]) s = step (burst texts s) (EditorInput t).
Proof. unfold burst. by rewrite fmap_app, foldl_app. Qed.

(** Edits that all give the committed lines leave timer and lines alone. *)
Lemma burst_unchanged (texts : list string) :
  ∀ s, Forall (λ x, JsString.split_newline x = previousLines s) texts →
       debounceTimer (burst texts s) = debounceTimer s.
Proof.
  induction texts as [|t texts IH]; intros s Hall; [done|].
  apply Forall_cons in Hall as [Ht Hall]. rewrite burst_cons.
  assert (step s (EditorInput t) = set_editor_value t s) as ->
    by (cbn [step]; by apply scheduleEvaluation_same).
  by rewrite IH.
Qed.

Lemma burst_keeps_armed (texts : list string) :
  ∀ s, is_Some (debounceTimer s) → is_Some (debounceTimer (burst texts s)).
Proof.
  induction texts as [|t texts IH]; intros s Hs; [done|].
  rewrite burst_cons. apply IH.
  destruct (editorInput_effect t s) as (_ & _ & _ & _ & _ & [Hsame|[k Hk]]).
  - cbv zeta in Hsame. by rewrite Hsame.
  - cbv zeta in Hk. rewrite Hk. by eexists.
Qed.

(** As soon as one edit gives other lines than those committed before
    it, the timer is armed at the end of the burst. *)
Lemma burst_changed (texts : list string) :
  ∀ s, ¬ Forall (λ x, JsString.split_newline x = previousLines s) texts →
       is_Some (debounceTimer (burst texts s)).
Proof.
  induction texts as [|t texts IH]; intros s Hnot; [by destruct Hnot|].
  rewrite burst_cons.
  destruct (decide (JsString.split_newline t = previousLines s)) as [Ht|Ht].
  - assert (step s (EditorInput t) = set_editor_value t s) as ->
      by (cbn [step]; by apply scheduleEvaluation_same).
    apply IH. intros Hall. apply Hnot. by constructor.
  - apply burst_keeps_armed. cbn [step].
    destruct (scheduleEvaluation_changed (set_editor_value t s) Ht) as (k & _ & ->).
    by eexists.
Qed.

(** X3.  A burst of input events with no timer armed before it sends
    nothing by itself and commits the lines of its last text.  If every
    text of the burst splits into the lines committed before the burst
    (no edit changed the lines), no timer is armed and its firing sends
    nothing.  Otherwise the timer is armed with the lines of the last
    text, and when it fires exactly one evaluation request is sent,
    carrying these lines and the snapshot of the other pages, and one call
    waits for its response; when the last edit is one that changes the
    lines, the start index is the least index at which its lines differ
    from those the edits before it had committed.  A second firing does
    nothing. *)
Theorem debounce_coalesces (texts : list string) (t : string) (s : State) :
  debounceTimer s = None →
  let b := burst (texts ++ [t]) s in
  let unchanged :=
    Forall (λ x, JsString.split_newline x = previousLines s) (texts ++ [t]) in
  sent b = sent s ∧
  previousLines b = JsString.split_newline t ∧
  (unchanged →
   debounceTimer b = None ∧ debounceFire b = b ∧ sent (debounceFire b) = sent s) ∧
  (¬ unchanged →
   ∃ k, debounceTimer b = Some (JsString.split_newline t, k) ∧
        sent (debounceFire b)
          = sent s ++ [EvaluateRequest (JsString.split_newline t) k (allPagesContext s)] ∧
        suspended (debounceFire b) = suspended s ++ [(JsString.split_newline t, k)]) ∧
  (JsString.split_newline t ≠ previousLines (burst texts s) →
   ∃ k, debounceTimer b = Some (JsString.split_newline t, k) ∧
        previousLines (burst texts s) !! k ≠ JsString.split_newline t !! k ∧
        ∀ j, j < k →
             previousLines (burst texts s) !! j = JsString.split_newline t !! j) ∧
  debounceFire (debounceFire b) = debounceFire b.
Proof.
  intros Hnone. cbv zeta.
  destruct (burst_effect (texts ++ [t]) s (or_introl Hnone))
    as (Hsent & Hsusp & Hpages & Hcur & Htimer & Hlast).
  specialize (Hlast t (last_snoc _ _)).
  split_and!; [done|done|..].
  - intros Hall.
    assert (debounceTimer (burst (texts ++ [t]) s) = None) as Ht
      by (by rewrite burst_unchanged).
    assert (debounceFire (burst (texts ++ [t]) s) = burst (texts ++ [t]) s) as Hfire
      by (unfold debounceFire; by rewrite Ht).
    by rewrite Hfire.
  - intros Hnot. destruct (burst_changed (texts ++ [t]) s Hnot) as [[lines k] Hk].
    destruct Htimer as [Ht|[k' Hk']]; [by rewrite Ht in Hk|].
    rewrite Hk' in Hk. injection Hk as <- <-. rewrite Hlast in Hk'.
    exists k'. split; [done|]. unfold debounceFire. rewrite Hk'.
    unfold evaluateLines_begin, allPagesContext.
    cbn [sent suspended set_sent set_suspended set_editorInfo set_status
         set_debounceTimer pages currentPageId].
    by rewrite Hsent, Hsusp, Hpages, Hcur.
  - intros Hne. rewrite burst_snoc. cbn [step].
    set (b0 := set_editor_value t (burst texts s)).
    destruct (scheduleEvaluation_changed b0 Hne) as (k & Hk & ->).
    exists k. split; [reflexivity|].
    destruct (getChangedLineIndex_cases (JsString.split_newline (editor_value b0)) b0)
      as [[_ Heq]|(k' & Hk' & Hd & Hmin)]; [done|].
    assert (k' = k) as -> by lia. done.
  - apply debounceFire_twice.
Qed.

Lemma debounce_coalesces_witness :
  ∃ k, sent (debounceFire (burst (["x"; "x ="] ++ ["x = 1"])
                             (set_debounceTimer None (bootstrap ""))))
       = sent (set_debounceTimer None (bootstrap ""))
         ++ [EvaluateRequest ["x = 1"] k ∅].
Proof.
  destruct (debounce_coalesces ["x"; "x ="] "x = 1"
              (set_debounceTimer None (bootstrap "")) eq_refl)
    as (_ & _ & _ & Hchanged & _ & _).
  destruct Hchanged as (k & _ & Hsent & _).
  - intros Hall. apply Forall_cons in Hall as [Hx _].
    vm_compute in Hx. discriminate Hx.
  - exists k. exact Hsent.
Defined.

(** ** Tab bar and Clear button leave pending evaluations alone *)

Lemma switchToPage_pending (pageId : nat) (s : State) :
  debounceTimer (switchToPage pageId s) = debounceTimer s ∧
  suspended (switchToPage pageId s) = suspended s ∧
  sent (switchToPage pageId s) = sent s.
Proof.
  unfold switchToPage, activatePage. cbn [pages set_currentPageId].
  destruct (findPage (Some pageId) _); done.
Qed.

(** X4.  No event of the tab bar (add, select, close, rename) and no
    click on Clear cancels the armed timer, drops an evaluation waiting
    for its response, or sends a request: an evaluation scheduled or in
    flight on one page is still delivered after the active page changed. *)
Theorem navigation_keeps_pending (e : Event) (s : State) :
  navigation e = true →
  debounceTimer (step s e) = debounceTimer s ∧
  suspended (step s e) = suspended s ∧
  sent (step s e) = sent s.
Proof.
  destruct e as [text| |k outcome now| | | |pid|pid|pid v key| |errors|];
    intros Hnav; try discriminate Hnav; cbn [step].
  - done.
  - unfold addTabClick, createPage. cbv zeta.
    destruct (switchToPage_pending (pageIdCounter s)
                (set_pages
                   (pages (set_pageIdCounter (S (pageIdCounter s)) s) ++
                    [Page.mk (pageIdCounter s)
                       (if truthy None then orEmpty None
                        else "Page" +:+ JsString.of_nat (pageIdCounter s + 1))
                       "" (Some []) (Some ∅)])
                   (set_pageIdCounter (S (pageIdCounter s)) s)))
      as (H1 & H2 & H3).
    cbn [Page.id]. rewrite H1, H2, H3. done.
  - destruct (hasTab pid s); [|done]. apply switchToPage_pending.
  - destruct (hasTab pid s); [|done]. unfold closeTab.
    destruct (decide (1 < length (pages s))); [|done].
    destruct (decide (currentPageId (set_pages _ s) = Some pid)); [|done].
    destruct (pages (set_pages _ s)) as [|first rest]; [done|].
    destruct (switchToPage_pending (Page.id first)
                (set_pages (splice1 (findIndex pid (pages s)) (pages s)) s))
      as (H1 & H2 & H3).
    rewrite H1, H2, H3. done.
  - destruct (hasTab pid s); [|done].
    destruct key; cbn [renameEvent]; unfold finish;
      try destruct (true && _); done.
Qed.

Lemma navigation_keeps_pending_witness :
  debounceTimer (step twoPages (TabClick 0)) = debounceTimer twoPages
  ∧ debounceTimer twoPages = Some (["y = 3"], 0).
Proof.
  split; [|vm_compute; reflexivity].
  apply (navigation_keeps_pending (TabClick 0) twoPages). reflexivity.
Defined.

(** ** Evaluation client: successful rounds *)

Lemma evaluateLines_resume_success_pages (lines : list string) (startIndex : nat)
  (data : Payload.t) (now : string) (s : State) :
  pages (evaluateLines_resume lines startIndex (Responded true data) now s)
    = updatePage (currentPageId s)
        (Page.with_context (Some (default ∅ (Payload.context data)))) (pages s)
  ∧ currentPageId (evaluateLines_resume lines startIndex (Responded true data) now s)
    = currentPageId s.
Proof.
  cbn [evaluateLines_resume].
  destruct (Payload.results data) as [results|]; [|done].
  match goal with |- context [logResultErrors 0 startIndex results now ?t] =>
    destruct (logResultErrors_registry startIndex now results 0 t) as (-> & -> & _)
  end.
  done.
Qed.

(** X5.  A success response writes its context into the record of the
    page that is active when the response is delivered, and into no other:
    every other page record is found unchanged, and ids, names, contents
    and stored results of all pages, their order and the active id stay as
    they were. *)
Theorem evaluateLines_context_isolation (lines : list string) (startIndex : nat)
  (data : Payload.t) (now : string) (s : State) (other : option nat) :
  let s' := evaluateLines_resume lines startIndex (Responded true data) now s in
  findPage (currentPageId s) (pages s')
    = Page.with_context (Some (default ∅ (Payload.context data)))
        <$> findPage (currentPageId s) (pages s) ∧
  (other ≠ currentPageId s → findPage other (pages s') = findPage other (pages s)) ∧
  Page.id <$> pages s' = Page.id <$> pages s ∧
  Page.name <$> pages s' = Page.name <$> pages s ∧
  Page.content <$> pages s' = Page.content <$> pages s ∧
  Page.results <$> pages s' = Page.results <$> pages s ∧
  currentPageId s' = currentPageId s.
Proof.
  cbv zeta.
  destruct (evaluateLines_resume_success_pages lines startIndex data now s) as [-> ->].
  assert (∀ (A : Type) (g : Page.t → A) f pid ps,
            (∀ p, g (f p) = g p) → g <$> updatePage pid f ps = g <$> ps) as Hmap.
  { intros A g f pid ps Hg. induction ps as [|p ps IH]; cbn [updatePage]; [done|].
    case_bool_decide; rewrite !fmap_cons; [by rewrite Hg|by rewrite IH]. }
  split_and!; try (apply Hmap; done); try done.
  - by apply findPage_updatePage_eq.
  - intros Hne. by apply findPage_updatePage_ne.
Qed.

(** A response for a round issued on the first page is written into the
    second page when that one has become active in between. *)
Example response_lands_on_active_page :
  Page.context <$>
    pages (run "x = 2"
             [AddTabClick;
              EvaluateSettled 0
                (Responded true
                   (Payload.mk (Some [Some ""]) (Some {[ "x" := JNum "2" ]}) None))
                "t0"])
  = [Some ∅; Some {[ "x" := JNum "2" ]}].
Proof. vm_compute. reflexivity. Qed.

Lemma logResultErrors_logAll (startIndex : nat) (now : string) :
  ∀ results idx s,
    logResultErrors idx startIndex results now s
      = logAll (markedEntries idx startIndex results now) s.
Proof.
  unfold logAll.
  induction results as [|result results IH]; intros idx s; [done|].
  cbn [logResultErrors markedEntries]. rewrite foldl_app, IH.
  destruct (truthy result && JsString.includes "Error:" (orEmpty result)); done.
Qed.

Lemma markedEntries_elem (startIndex : nat) (now : string) (e : ErrorEntry.t) :
  ∀ results idx,
    e ∈ markedEntries idx startIndex results now ↔
    ∃ i r, results !! i = Some (Some r) ∧ r ≠ "" ∧
           JsString.includes "Error:" r = true ∧
           e = ErrorEntry.mk now "evaluation" r (Some (idx + i + startIndex + 1)).
Proof.
  induction results as [|result results IH]; intros idx; cbn [markedEntries].
  - split; [by intros ?%elem_of_nil|by intros (i & r & ? & _)].
  - rewrite elem_of_app, IH. split.
    + intros [He|(i & r & Hi & Hr & Hinc & ->)].
      * destruct result as [r|]; [|by apply elem_of_nil in He].
        unfold truthy, orEmpty, default in He. cbn [from_option id] in He.
        destruct (String.eqb_spec r ""); [by apply elem_of_nil in He|].
        cbn [negb andb] in He.
        destruct (JsString.includes "Error:" r) eqn:Hinc;
          [|by apply elem_of_nil in He].
        apply elem_of_cons in He as [->|[]%elem_of_nil].
        exists 0, r. split_and!; try done. do 3 f_equal. lia.
      * exists (S i), r. split_and!; try done. do 3 f_equal. lia.
    + intros ([|i] & r & Hi & Hr & Hinc & ->).
      * left. injection Hi as ->. unfold truthy, orEmpty, default. cbn [from_option id].
        destruct (String.eqb_spec r ""); [done|]. rewrite Hinc. cbn [negb andb].
        replace (idx + 0 + startIndex + 1) with (idx + startIndex + 1) by lia. left.
      * right. exists i, r. split_and!; try done. do 3 f_equal. lia.
Qed.

(** X6.  After a success response with results [rs] applied from index
    [k], the error log is the one obtained by logging, in order, one entry
    for each non-empty result that holds "Error:", tagged [evaluation],
    with the result as message and line number [k + i + 1] for the result
    at position [i]; nothing is logged for the other results, and while
    the cap of 100 is not reached the entries are simply appended. *)
Theorem evaluateLines_logs_marked (lines : list string) (k : nat)
  (rs : list JsStr) (ctx : option (gmap string json)) (err : JsStr)
  (now : string) (s : State) (e : ErrorEntry.t) :
  let s' := evaluateLines_resume lines k (Responded true (Payload.mk (Some rs) ctx err)) now s in
  let entries := markedEntries 0 k rs now in
  errorLogs s' = errorLogs (logAll entries s) ∧
  (length (errorLogs s) + length entries ≤ 100 → errorLogs s' = errorLogs s ++ entries) ∧
  (entries = [] → errorLogs s' = errorLogs s) ∧
  (e ∈ entries ↔
   ∃ i r, rs !! i = Some (Some r) ∧ r ≠ "" ∧ JsString.includes "Error:" r = true ∧
          e = ErrorEntry.mk now "evaluation" r (Some (i + k + 1))).
Proof.
  cbv zeta. cbn [evaluateLines_resume Payload.results].
  rewrite logResultErrors_logAll.
  set (t := set_editorInfo _ _).
  assert (errorLogs t = errorLogs s) as Ht by reflexivity.
  split_and!.
  - clearbody t. revert t Ht. unfold logAll.
    generalize (markedEntries 0 k rs now) as es. intros es. revert s.
    induction es as [|x es IH]; intros s t Ht; [done|].
    cbn [foldl]. apply IH. rewrite !logError_errorLogs. cbv zeta. by rewrite Ht.
  - intros Hcap. rewrite logAll_errorLogs by (rewrite Ht; lia).
    rewrite Ht. replace (length (errorLogs s ++ markedEntries 0 k rs now) - 100) with 0
      by (rewrite length_app; lia).
    done.
  - intros ->. done.
  - rewrite markedEntries_elem. done.
Qed.

(** X7.  A success response whose payload has no [results] first clears
    [latestResults] and stores the context on the active page, and then
    ends in the [catch] block: the status reads "Evaluation failed", the
    editor info "Failed", and one entry tagged [network] is logged. *)
Theorem evaluateLines_success_without_results (lines : list string) (k : nat)
  (ctx : option (gmap string json)) (err : JsStr) (now : string) (s : State) :
  let s' := evaluateLines_resume lines k (Responded true (Payload.mk None ctx err)) now s in
  latestResults s' = [] ∧
  overlay s' = overlay s ∧
  findPage (currentPageId s) (pages s')
    = Page.with_context (Some (default ∅ ctx)) <$> findPage (currentPageId s) (pages s) ∧
  status s' = "Evaluation failed" ∧
  editorInfo s' = "Failed" ∧
  last (errorLogs s')
    = Some (ErrorEntry.mk now "network" ("Network error: " +:+ forEachOfUndefined) None).
Proof.
  cbv zeta. split_and!; try reflexivity.
  - by apply findPage_updatePage_eq.
  - apply (logError_last ("Network error: " +:+ forEachOfUndefined) "network" None now).
Qed.

(** ** Page registry: what holds in every reachable state *)

(** X8.  In every state the session can reach, page ids are pairwise
    distinct and below [pageIdCounter] (an id is never used twice, also
    after pages were closed), [currentPageId] is the id of a page of the
    list, and every page carries a results array. *)
Theorem reachable_registry (text : string) (evs : list Event) :
  let s := run text evs in
  NoDup (Page.id <$> pages s) ∧
  (∀ p, p ∈ pages s → Page.id p < pageIdCounter s) ∧
  (∃ p, p ∈ pages s ∧ currentPageId s = Some (Page.id p)
        ∧ findPage (currentPageId s) (pages s) = Some p) ∧
  (∀ p, p ∈ pages s → is_Some (Page.results p)).
Proof.
  cbv zeta. destruct (run_ok text evs) as (_ & Hnd & Hlt & Hrs & pid & Hcur & Hin).
  rewrite Forall_forall in Hlt. rewrite Forall_forall in Hrs.
  split_and!; [done|done| |done].
  rewrite Hcur. clear Hcur Hlt Hrs Hnd.
  induction (pages (run text evs)) as [|p ps IH]; [by apply elem_of_nil in Hin|].
  rewrite fmap_cons in Hin. unfold findPage. cbn [find].
  case_bool_decide as Hp.
  - exists p. split_and!; [left|congruence|done].
  - apply elem_of_cons in Hin as [->|Hin]; [done|].
    destruct (IH Hin) as (q & Hq & Hid & Hfind).
    exists q. split_and!; [by right|done|done].
Qed.

(** ** Adding a page *)

Lemma updatePage_app_l (pageId : option nat) (f : Page.t → Page.t)
  (ps qs : list Page.t) :
  (∀ q, q ∈ qs → Some (Page.id q) ≠ pageId) →
  updatePage pageId f (ps ++ qs) = updatePage pageId f ps ++ qs.
Proof.
  intros Hqs. induction ps as [|p ps IH]; cbn [app updatePage].
  - by apply updatePage_absent.
  - case_bool_decide; [done|by rewrite IH].
Qed.

Lemma findPage_app_r (pageId : option nat) (ps : list Page.t) (q : Page.t) :
  (∀ p, p ∈ ps → Some (Page.id p) ≠ pageId) → Some (Page.id q) = pageId →
  findPage pageId (ps ++ [q]) = Some q.
Proof.
  intros Hps Hq. unfold findPage. induction ps as [|p ps IH]; cbn [app find].
  - by rewrite bool_decide_eq_true_2.
  - rewrite bool_decide_eq_false_2 by (apply Hps; left).
    apply IH. intros p' Hp'. apply Hps. by right.
Qed.

(** X9.  In every reachable state, the Add button saves the outgoing
    page, appends a page whose id is the counter and whose name is "Page"
    followed by id + 1, with empty content, results and context, makes it
    the active page and shows an empty editor with a single empty row. *)
Theorem addTabClick_fresh_page (text : string) (evs : list Event) :
  let s := run text evs in
  let s' := addTabClick s in
  let page := Page.mk (pageIdCounter s)
                ("Page" +:+ JsString.of_nat (pageIdCounter s + 1)) "" (Some []) (Some ∅) in
  pages s' = pages (saveCurrentPage s) ++ [page] ∧
  currentPageId s' = Some (pageIdCounter s) ∧
  pageIdCounter s' = S (pageIdCounter s) ∧
  editor_value s' = "" ∧ previousLines s' = [""] ∧ latestResults s' = [] ∧
  overlay s' = [OverlayRow.mk " 1" ""].
Proof.
  cbv zeta. destruct (run_ok text evs) as (_ & _ & Hlt & _ & pid & Hcur & Hin).
  set (s := run text evs) in *. rewrite Forall_forall in Hlt.
  set (page := Page.mk (pageIdCounter s)
                 ("Page" +:+ JsString.of_nat (pageIdCounter s + 1)) "" (Some []) (Some ∅)).
  assert (addTabClick s
          = switchToPage (pageIdCounter s)
              (set_pages (pages s ++ [page]) (set_pageIdCounter (S (pageIdCounter s)) s)))
    as -> by reflexivity.
  set (s1 := set_pages (pages s ++ [page]) (set_pageIdCounter (S (pageIdCounter s)) s)).
  assert (pages (saveCurrentPage s1) = pages (saveCurrentPage s) ++ [page]) as Hsaved.
  { unfold saveCurrentPage. cbn [pages set_pages]. subst s1.
    cbn [pages set_pages currentPageId set_pageIdCounter latestResults editor_value].
    apply updatePage_app_l. intros q [->|[]%elem_of_nil]%elem_of_cons.
    rewrite Hcur. cbn [Page.id page]. intros [= Heq].
    apply list_elem_of_fmap in Hin as (p & -> & Hp). specialize (Hlt p Hp).
    cbn beta in Hlt. lia. }
  assert (findPage (Some (pageIdCounter s)) (pages (saveCurrentPage s1)) = Some page)
    as Hfind.
  { rewrite Hsaved. apply findPage_app_r; [|done].
    intros p Hp [= Heq]. unfold saveCurrentPage in Hp. cbn [pages set_pages] in Hp.
    apply updatePage_elem in Hp as [Hp|(p' & Hp' & ->)].
    - specialize (Hlt p Hp). cbn beta in Hlt. lia.
    - specialize (Hlt p' Hp'). cbn beta in Hlt. cbn in Heq. lia. }
  destruct (switchToPage_registry (pageIdCounter s) s1) as (Hp & Hc & Hn).
  rewrite Hp, Hc, Hn, Hsaved. split_and!; try done.
  all: unfold switchToPage, activatePage; cbn [pages set_currentPageId];
    rewrite Hfind; reflexivity.
Qed.

(** ** The Clear button *)

(** X10.  Clear empties the editor, [latestResults] and the overlay
    (which then has no row at all), commits the empty array as
    [previousLines] and stores the empty content and results on the active
    page; since the text of the editor always splits into at least one
    line, the next input event arms the timer with start index 0 whatever
    it typed, even an empty text. *)
Theorem clearClick_resets (s : State) (t : string) :
  let c := clearClick s in
  editor_value c = "" ∧ overlay c = [] ∧ previousLines c = [] ∧
  latestResults c = [] ∧ editorInfo c = "Ready" ∧
  findPage (currentPageId s) (pages c)
    = (λ p, Page.mk (Page.id p) (Page.name p) "" (Some []) (Page.context p))
        <$> findPage (currentPageId s) (pages s) ∧
  debounceTimer (step c (EditorInput t)) = Some (JsString.split_newline t, 0).
Proof.
  cbv zeta. split_and!; try reflexivity.
  - unfold clearClick, saveCurrentPage. cbv zeta.
    cbn [pages set_pages currentPageId set_editorInfo renderLines set_overlay
         set_latestResults set_previousLines set_editor_value latestResults
         editor_value].
    by rewrite findPage_updatePage_eq.
  - cbn [step]. set (c := set_editor_value t (clearClick s)).
    assert (previousLines c = []) as Hprev by reflexivity.
    assert (JsString.split_newline (editor_value c) ≠ previousLines c) as Hne.
    { rewrite Hprev. apply split_newline_nonempty. }
    destruct (scheduleEvaluation_changed c Hne) as (k & Hk & ->).
    cbn [debounceTimer set_debounceTimer]. f_equal. f_equal.
    assert (getChangedLineIndex (JsString.split_newline (editor_value c)) c = 0%Z)
      as H0; [|lia].
    apply (getChangedLineIndex_least _ c 0); [|intros j Hj; lia].
    rewrite Hprev. pose proof (split_newline_nonempty (editor_value c)).
    destruct (JsString.split_newline (editor_value c)); done.
Qed.

(** ** Switching pages and back *)

Lemma switchToPage_loads (pageId : nat) (s : State) (pb : Page.t) :
  findPage (Some pageId) (pages (saveCurrentPage s)) = Some pb →
  editor_value (switchToPage pageId s) = Page.content pb ∧
  latestResults (switchToPage pageId s) = default [] (Page.results pb) ∧
  previousLines (switchToPage pageId s) = JsString.split_newline (Page.content pb).
Proof.
  intros Hpb. unfold switchToPage, activatePage. cbn [pages set_currentPageId].
  rewrite Hpb. done.
Qed.

Lemma saveCurrentPage_find (s : State) (other : option nat) :
  findPage other (pages (saveCurrentPage s)) =
    if decide (other = currentPageId s)
    then (λ p, Page.with_results (Some (latestResults s))
                 (Page.with_content (editor_value s) p)) <$> findPage other (pages s)
    else findPage other (pages s).
Proof.
  unfold saveCurrentPage. cbn [pages set_pages]. case_decide as Ho.
  - rewrite Ho. by apply findPage_updatePage_eq.
  - by apply findPage_updatePage_ne.
Qed.

(** X11.  Switching from the active page [A] to a page [B] and back to
    [A] shows again what [A] showed: the editor text and [latestResults]
    are those from before, [A] is active, and [previousLines] are the
    lines of that text. *)
Theorem switchToPage_round_trip (s : State) (A B : nat) :
  currentPageId s = Some A →
  is_Some (findPage (Some A) (pages s)) →
  is_Some (findPage (Some B) (pages s)) →
  let s2 := switchToPage A (switchToPage B s) in
  editor_value s2 = editor_value s ∧
  latestResults s2 = latestResults s ∧
  previousLines s2 = JsString.split_newline (editor_value s) ∧
  currentPageId s2 = Some A.
Proof.
  intros Hcur [pa Hpa] [pb Hpb]. cbv zeta.
  set (s1 := switchToPage B s).
  destruct (switchToPage_registry B s) as (Hp1 & Hc1 & _). fold s1 in Hp1, Hc1.
  assert (findPage (Some A) (pages (saveCurrentPage s))
          = Some (Page.with_results (Some (latestResults s))
                    (Page.with_content (editor_value s) pa))) as HA.
  { rewrite saveCurrentPage_find, Hcur, decide_True by done. by rewrite Hpa. }
  assert (∃ pa', findPage (Some A) (pages (saveCurrentPage s1)) = Some pa'
                 ∧ Page.content pa' = editor_value s
                 ∧ Page.results pa' = Some (latestResults s)) as (pa' & Hpa' & Hc & Hr).
  { rewrite saveCurrentPage_find, Hc1, Hp1. case_decide as HAB.
    - injection HAB as <-.
      destruct (switchToPage_loads A s _ HA) as (He & Hl & _). fold s1 in He, Hl.
      rewrite HA. eexists. split; [reflexivity|]. cbn. rewrite He, Hl. done.
    - rewrite HA. eexists. split; [reflexivity|]. done. }
  destruct (switchToPage_loads A s1 pa' Hpa') as (-> & -> & ->).
  rewrite Hc, Hr. split_and!; try done.
  apply switchToPage_registry.
Qed.

Lemma switchToPage_round_trip_witness :
  editor_value (switchToPage 1 (switchToPage 0 twoPages)) = editor_value twoPages.
Proof.
  apply (switchToPage_round_trip twoPages 1 0).
  - reflexivity.
  - vm_compute. by eexists.
  - vm_compute. by eexists.
Defined.

(** ** Error log: length under repeated logging *)

Lemma logError_length (message type : string) (lineNo : option nat)
  (now : string) (s : State) :
  length (errorLogs (logError message type lineNo now s))
    = if decide (length (errorLogs s) < 100) then S (length (errorLogs s))
      else length (errorLogs s).
Proof.
  rewrite logError_errorLogs. cbv zeta.
  case_decide as H1; rewrite length_app in H1; cbn [length] in H1.
  - rewrite length_drop, length_app. cbn [length]. case_decide; lia.
  - rewrite length_app. cbn [length]. case_decide; lia.
Qed.

(** X12.  Logging entries one after the other never lengthens a log of
    100 or more entries and never shortens any log: a log below the cap
    grows up to 100 and stays there, while a longer log (the list fetched
    from the server may be one) keeps its length for ever, each new entry
    pushing out the oldest one. *)
Theorem logAll_length (entries : list ErrorEntry.t) (s : State) :
  length (errorLogs (logAll entries s))
    = if decide (length (errorLogs s) < 100)
      then Nat.min 100 (length (errorLogs s) + length entries)
      else length (errorLogs s).
Proof.
  unfold logAll. revert s.
  induction entries as [|e entries IH]; intros s; cbn [foldl].
  - case_decide; cbn [length]; lia.
  - rewrite IH, logError_length. cbn [length].
    repeat case_decide; lia.
Qed.

Example oversized_log_stays_oversized :
  let fetched := replicate 150 (ErrorEntry.mk "t" "api" "m" None) in
  length (errorLogs
            (logError "n" "client" None "t'" (errorLogsFetched (Some fetched) (initial ""))))
    = 150.
Proof. vm_compute. reflexivity. Qed.

(** ** Insert buttons *)

(** X13.  With the editor text committed, the Insert button of a
    variable appends the reference as new lines below the old ones
    and arms the timer with the index of the first new line: all lines
    present before are left out of the cascade. *)
Theorem insertVariable_starts_below (pageName key : string) (s : State) :
  previousLines s = JsString.split_newline (editor_value s) →
  let s' := insertVariable pageName key s in
  let reference := pageName +:+ ("." +:+ key) in
  editor_value s' = editor_value s +:+ String "010" reference ∧
  previousLines s' = previousLines s ++ JsString.split_newline reference ∧
  debounceTimer s' = Some (previousLines s', length (previousLines s)) ∧
  sent s' = sent s.
Proof.
  intros Hcommitted. cbv zeta. unfold insertVariable. cbv zeta.
  set (reference := pageName +:+ ("." +:+ key)).
  set (s0 := set_editor_value (editor_value s +:+ String "010" reference) s).
  assert (JsString.split_newline (editor_value s0)
          = previousLines s ++ JsString.split_newline reference) as Hsplit.
  { unfold s0. cbn [editor_value set_editor_value].
    by rewrite split_newline_app_line, Hcommitted. }
  assert (JsString.split_newline (editor_value s0) ≠ previousLines s0) as Hne.
  { rewrite Hsplit. cbn [previousLines s0 set_editor_value]. intros Heq.
    apply (f_equal length) in Heq. rewrite length_app in Heq.
    pose proof (split_newline_nonempty reference).
    destruct (JsString.split_newline reference); [done|]. cbn [length] in Heq. lia. }
  destruct (scheduleEvaluation_changed s0 Hne) as (k & Hk & ->).
  rewrite Hsplit in *.
  cbn [editor_value previousLines debounceTimer sent set_debounceTimer renderLines
       set_overlay set_previousLines].
  split_and!; try reflexivity.
  f_equal. f_equal.
  destruct (getChangedLineIndex_tail_edits_aux (previousLines s)
              (JsString.split_newline reference) s0) as [Happ _].
  rewrite Happ in Hk; [lia|reflexivity|apply split_newline_nonempty].
Qed.

Lemma insertVariable_starts_below_witness :
  debounceTimer (insertVariable "Main" "x" (bootstrap "x = 2"))
    = Some (["x = 2"; "Main.x"], 1).
Proof.
  apply (insertVariable_starts_below "Main" "x" (bootstrap "x = 2")).
  reflexivity.
Defined.

Lemma string_app_nil_inv (a b : string) : a +:+ b = a → b = "".
Proof.
  intros Heq. apply (f_equal String.length) in Heq.
  rewrite string_app_length in Heq. destruct b; [done|]. simpl in Heq. lia.
Qed.

(** X14.  With the editor text committed, the Insert button of a search
    match appends the prefixed call to the text and always arms the timer
    (the insertion is never taken for a no-op), with a start index that is
    not above the last line that was there: every line before that one is
    left out of the cascade.  The prefix is "np." for numpy, "sp." for
    sympy and the library name with a dot otherwise. *)
Theorem insertFunction_schedules (library matchName : string) (s : State) :
  previousLines s = JsString.split_newline (editor_value s) →
  let s' := insertFunction library matchName s in
  editor_value s'
    = editor_value s +:+ (libraryPrefix library +:+ (matchName +:+ "()")) ∧
  (∃ k, debounceTimer s' = Some (JsString.split_newline (editor_value s'), k)
        ∧ length (previousLines s) - 1 ≤ k) ∧
  previousLines s' = JsString.split_newline (editor_value s') ∧
  sent s' = sent s ∧
  libraryPrefix "numpy" = "np." ∧ libraryPrefix "sympy" = "sp." ∧
  (library ≠ "numpy" → library ≠ "sympy" → libraryPrefix library = library +:+ ".").
Proof.
  intros Hcommitted. cbv zeta. unfold insertFunction.
  set (b := libraryPrefix library +:+ (matchName +:+ "()")).
  set (s0 := set_editor_value (editor_value s +:+ b) s).
  assert (b ≠ "") as Hb.
  { unfold b. intros Hnil. apply (f_equal String.length) in Hnil.
    rewrite !string_app_length in Hnil. simpl in Hnil. lia. }
  assert (JsString.split_newline (editor_value s0) ≠ previousLines s0) as Hne.
  { cbn [editor_value previousLines s0 set_editor_value]. rewrite Hcommitted.
    intros Heq. apply (f_equal (String.concat (String "010" ""))) in Heq.
    rewrite !split_newline_join in Heq. by apply string_app_nil_inv in Heq. }
  destruct (scheduleEvaluation_changed s0 Hne) as (k & Hk & ->).
  cbn [editor_value previousLines debounceTimer sent set_debounceTimer renderLines
       set_overlay set_previousLines].
  split_and!; try reflexivity.
  - exists k. split; [reflexivity|].
    destruct (getChangedLineIndex_cases (JsString.split_newline (editor_value s0)) s0)
      as [[_ Heq]|(k' & Hk' & Hd & _)]; [done|].
    assert (k' = k) as -> by lia.
    destruct (decide (S k < length (previousLines s))) as [Hlt|]; [|lia].
    exfalso. apply Hd. cbn [previousLines editor_value s0 set_editor_value].
    rewrite Hcommitted. symmetry. apply split_newline_app_lookup.
    by rewrite <-Hcommitted.
  - intros Hn Hs. unfold libraryPrefix.
    destruct (String.eqb_spec library "numpy"); [done|].
    destruct (String.eqb_spec library "sympy"); done.
Qed.

Lemma insertFunction_schedules_witness :
  editor_value (insertFunction "numpy" "sqrt" (bootstrap "x = 2")) = "x = 2np.sqrt()".
Proof.
  apply (insertFunction_schedules "numpy" "sqrt" (bootstrap "x = 2")). reflexivity.
Defined.

(** ** Page names *)

Lemma trimEnd_idem (s : string) :
  JsString.trimEnd (JsString.trimEnd s) = JsString.trimEnd s.
Proof.
  induction s as [|c s IH]; [done|]. cbn [JsString.trimEnd].
  destruct (JsString.trimEnd s) as [|c' kept] eqn:Hs.
  - destruct (JsString.is_space c) eqn:Hc; [done|].
    cbn [JsString.trimEnd]. by rewrite Hc.
  - change (JsString.trimEnd (String c (String c' kept)))
      with (match JsString.trimEnd (String c' kept) with
            | EmptyString => if JsString.is_space c then "" else String c ""
            | k => String c k
            end).
    by rewrite IH.
Qed.

Lemma trimStart_head (s : string) :
  JsString.trimStart s = ""
  ∨ ∃ c r, JsString.trimStart s = String c r ∧ JsString.is_space c = false.
Proof.
  induction s as [|c s IH]; [by left|]. cbn [JsString.trimStart].
  destruct (JsString.is_space c) eqn:Hc; [done|]. right. by exists c, s.
Qed.

Lemma trim_idem (s : string) : JsString.trim (JsString.trim s) = JsString.trim s.
Proof.
  unfold JsString.trim.
  destruct (trimStart_head s) as [->|(c & r & -> & Hc)]; [done|].
  assert (JsString.trimStart (JsString.trimEnd (String c r))
          = JsString.trimEnd (String c r)) as ->.
  { cbn [JsString.trimEnd]. destruct (JsString.trimEnd r).
    - rewrite Hc. cbn [JsString.trimStart]. by rewrite Hc.
    - cbn [JsString.trimStart]. by rewrite Hc. }
  apply trimEnd_idem.
Qed.

Lemma noSpace_trim (s : string) : noSpace s = true → JsString.trim s = s.
Proof.
  intros Hs. unfold JsString.trim.
  assert (JsString.trimStart s = s) as ->.
  { destruct s as [|c r]; [done|]. cbn [noSpace] in Hs. cbn [JsString.trimStart].
    destruct (JsString.is_space c); done. }
  induction s as [|c r IH]; [done|]. cbn [noSpace] in Hs.
  apply andb_true_iff in Hs as [Hc Hr]. cbn [JsString.trimEnd].
  rewrite IH by done. destruct r; [|done].
  destruct (JsString.is_space c); done.
Qed.

Lemma noSpace_app (a b : string) :
  noSpace a = true → noSpace b = true → noSpace (a +:+ b) = true.
Proof.
  induction a as [|c a IH]; intros Ha Hb; [done|].
  change (String c a +:+ b) with (String c (a +:+ b)). cbn [noSpace] in *.
  apply andb_true_iff in Ha as [-> Ha]. by rewrite IH.
Qed.

Lemma noSpace_of_nat (n : nat) : noSpace (JsString.of_nat n) = true.
Proof.
  unfold JsString.of_nat, NilZero.string_of_uint.
  assert (∀ d, noSpace (NilEmpty.string_of_uint d) = true) as Hd.
  { induction d; cbn [NilEmpty.string_of_uint noSpace]; try done. }
  destruct (Nat.to_uint n); try apply Hd. done.
Qed.

Lemma tidyName_default (id : nat) (content : string)
  (rs : option (list JsStr)) (ctx : option (gmap string json)) :
  tidyName (Page.mk id ("Page" +:+ JsString.of_nat (id + 1)) content rs ctx).
Proof.
  split; [done|]. cbn [Page.name]. apply noSpace_trim.
  apply noSpace_app; [done|apply noSpace_of_nat].
Qed.

Lemma splice1_Forall (P : Page.t → Prop) (idx : option nat) (ps : list Page.t) :
  Forall P ps → Forall P (splice1 idx ps).
Proof.
  intros Hps. destruct idx as [i|]; cbn [splice1]; [by apply Forall_delete|].
  induction Hps as [|p ps Hp Hps IH]; [constructor|].
  cbn [removelast]. destruct ps; [constructor|]. by constructor.
Qed.

Lemma tidyName_step (s : State) (e : Event) :
  Forall tidyName (pages s) → Forall tidyName (pages (step s e)).
Proof.
  intros Hok.
  assert (∀ (t : State) cur, Forall tidyName (pages t) →
            Forall tidyName (pages (saveCurrentPage (set_currentPageId cur t)))) as Hsave'.
  { intros t cur Ht. unfold saveCurrentPage. cbn [pages set_pages set_currentPageId].
    by apply updatePage_Forall. }
  assert (∀ t, Forall tidyName (pages t) → Forall tidyName (pages (saveCurrentPage t)))
    as Hsave.
  { intros t Ht. unfold saveCurrentPage. cbn [pages set_pages].
    by apply updatePage_Forall. }
  assert (∀ pid t, Forall tidyName (pages t) → Forall tidyName (pages (switchToPage pid t)))
    as Hswitch.
  { intros pid t Ht. destruct (switchToPage_registry pid t) as (-> & _). by apply Hsave. }
  destruct e as [text| |k outcome now| | | |pid|pid|pid v key| |errors|]; cbn [step].
  - unfold scheduleEvaluation. destruct (_ =? _)%Z; exact Hok.
  - unfold debounceFire. destruct (debounceTimer s) as [[lines idx]|]; exact Hok.
  - destruct (suspended s !! k) as [[lines idx]|]; [|exact Hok].
    destruct outcome as [message|ok message|[]|[] data]; try exact Hok.
    match goal with |- context [evaluateLines_resume lines idx _ now ?t] =>
      destruct (evaluateLines_resume_success_pages lines idx data now t) as [-> _]
    end.
    by apply updatePage_Forall.
  - exact Hok.
  - unfold clearClick. cbv zeta. apply Hsave. exact Hok.
  - unfold addTabClick, createPage. cbv zeta. apply Hswitch.
    cbn [pages set_pages set_pageIdCounter]. apply Forall_app. split; [done|].
    constructor; [|constructor]. apply tidyName_default.
  - destruct (hasTab pid s); [|exact Hok]. by apply Hswitch.
  - destruct (hasTab pid s); [|exact Hok]. unfold closeTab.
    destruct (decide (1 < length (pages s))); [|exact Hok].
    pose proof (splice1_Forall tidyName (findIndex pid (pages s)) (pages s) Hok) as Hsp.
    destruct (decide (currentPageId (set_pages _ s) = Some pid)); [|exact Hsp].
    cbn [pages set_pages] in *.
    destruct (splice1 (findIndex pid (pages s)) (pages s)) as [|first rest] eqn:Hs;
      [exact Hsp|].
    apply Hswitch. cbn [pages set_pages]. exact Hsp.
  - destruct (hasTab pid s); [|exact Hok].
    assert (Forall tidyName (pages (finish pid v true s))) as Hfin.
    { unfold finish. cbn [andb truthy].
      destruct (String.eqb_spec (JsString.trim v) "") as [|Hne]; [exact Hok|].
      cbn [negb pages set_pages]. apply updatePage_Forall; [|exact Hok].
      intros p _. split; [exact Hne|apply trim_idem]. }
    destruct key; cbn [renameEvent]; [exact Hfin|exact Hfin|exact Hok].
  - exact Hok.
  - exact Hok.
  - exact Hok.
Qed.

(** X15.  In every state the session can reach, no page has an empty
    name and no page name starts or ends with white space: trimming a name
    gives the name back.  (The first page is "Main", every added page is
    "Page" followed by a number, and a rename stores a trimmed, non-empty
    text or nothing.) *)
Theorem reachable_names_tidy (text : string) (evs : list Event) (p : Page.t) :
  p ∈ pages (run text evs) →
  Page.name p ≠ "" ∧ JsString.trim (Page.name p) = Page.name p.
Proof.
  revert p. apply Forall_forall. unfold run.
  assert (Forall tidyName (pages (bootstrap text))) as Hinit.
  { cbn. constructor; [|constructor]. split; [done|reflexivity]. }
  revert Hinit. generalize (bootstrap text).
  induction evs as [|e evs IH]; intros s Hs; cbn [foldl]; [exact Hs|].
  apply IH. by apply tidyName_step.
Qed.

Lemma reachable_names_tidy_witness :
  Page.name (Page.mk 0 "Totals" "" (Some []) (Some ∅)) ≠ "".
Proof.
  apply (reachable_names_tidy "" [TabRename 0 "  Totals " Blur]
           (Page.mk 0 "Totals" "" (Some []) (Some ∅))).
  vm_compute. left.
Defined.

Lemma updatePage_fmap {A : Type} (g : Page.t → A) (f : Page.t → Page.t)
  (pageId : option nat) (ps : list Page.t) :
  (∀ p, g (f p) = g p) → g <$> updatePage pageId f ps = g <$> ps.
Proof.
  intros Hg. induction ps as [|p ps IH]; cbn [updatePage]; [done|].
  case_bool_decide; rewrite !fmap_cons; [by rewrite Hg|by rewrite IH].
Qed.

(** X16.  Whatever the rename box holds and however it is left, a
    rename changes nothing but page names: ids, contents, stored results
    and contexts of all pages and their order stay as they were (no page
    text is rewritten to follow the new name), and so do the editor, the
    active page, the timer and the requests sent. *)
Theorem renameEvent_only_names (pageId : nat) (inputValue : string)
  (key : RenameKey) (s : State) :
  let s' := renameEvent pageId inputValue key s in
  Page.id <$> pages s' = Page.id <$> pages s ∧
  Page.content <$> pages s' = Page.content <$> pages s ∧
  Page.results <$> pages s' = Page.results <$> pages s ∧
  Page.context <$> pages s' = Page.context <$> pages s ∧
  s' = set_pages (pages s') s.
Proof.
  cbv zeta.
  assert (∀ apply, let s' := finish pageId inputValue apply s in
            Page.id <$> pages s' = Page.id <$> pages s ∧
            Page.content <$> pages s' = Page.content <$> pages s ∧
            Page.results <$> pages s' = Page.results <$> pages s ∧
            Page.context <$> pages s' = Page.context <$> pages s ∧
            s' = set_pages (pages s') s) as Hfin.
  { intros apply. cbv zeta. unfold finish.
    destruct (apply && _).
    - cbn [pages set_pages]. split_and!; try (by apply updatePage_fmap). done.
    - split_and!; try done. by destruct s. }
  destruct key; apply Hfin.
Qed.

(** ** Rendering the overlay *)

(** X17.  [renderLines] builds exactly one row per line; row [i] is
    numbered [i + 1], padded to two characters, and shows
    [latestResults[i]], or the empty string when that entry is missing or
    falsy.  Rendering after [updateResultsFrom k R] therefore shows [R] on
    every line, also on the lines above [k] that the projection itself
    left as they were. *)
Theorem renderLines_rows (lines : list string) (s : State) (k : nat)
  (R : list JsStr) (i : nat) :
  length (overlay (renderLines lines s)) = length lines ∧
  overlay (renderLines lines s) !! i
    = (λ _, OverlayRow.mk (JsString.padStart2 (JsString.of_nat (i + 1)))
              (orEmpty (mjoin (latestResults s !! i)))) <$> lines !! i ∧
  OverlayRow.result <$> overlay (renderLines lines (updateResultsFrom k R s)) !! i
    = (λ _, orEmpty (mjoin (R !! i))) <$> lines !! i ∧
  renderLines lines s = set_overlay (overlay (renderLines lines s)) s.
Proof.
  unfold renderLines. cbn [overlay set_overlay]. split_and!.
  - by rewrite length_imap.
  - rewrite list_lookup_imap. by destruct (lines !! i).
  - rewrite list_lookup_imap. cbn [latestResults updateResultsFrom set_overlay
      set_latestResults]. by destruct (lines !! i).
  - reflexivity.
Qed.

(** ** Side panes *)

(** X18.  Opening a pane after closing it always gives it the width
    "320px", whatever width it had been resized to, shows it and leaves it
    docked (not floating); opening an open pane again changes nothing, and
    opening keeps any width other than the empty one and "0px". *)
Theorem openPane_after_close (p : Pane.t) :
  Pane.width (openPane (closePane p)) = "320px" ∧
  Pane.hidden (openPane (closePane p)) = false ∧
  Pane.isOpen (openPane (closePane p)) = true ∧
  Pane.floating (openPane (closePane p)) = false ∧
  openPane (openPane p) = openPane p ∧
  (Pane.width p ≠ "" → Pane.width p ≠ "0px" →
   Pane.width (openPane p) = Pane.width p).
Proof.
  split_and!; try reflexivity.
  - unfold openPane. cbn [Pane.width Pane.floating Pane.dock Pane.transform
      Pane.dockLabel truthy].
    destruct (String.eqb_spec (Pane.width p) "") as [->|Hw]; [done|].
    destruct (String.eqb_spec (Pane.width p) "0px") as [->|Hz]; [done|].
    cbn [negb orb]. destruct (String.eqb_spec (Pane.width p) ""); [done|].
    destruct (String.eqb_spec (Pane.width p) "0px"); done.
  - intros Hw Hz. unfold openPane. cbn [Pane.width truthy].
    destruct (String.eqb_spec (Pane.width p) ""); [done|].
    destruct (String.eqb_spec (Pane.width p) "0px"); done.
Qed.

(** X19.  A click on a dock button leaves the pane docked on one of the
    two sides, not floating and without transform, and labels the button
    with the other side; a pane with no side recorded counts as docked
    right and moves left.  Two clicks bring a pane docked left or right
    back to its side and label. *)
Theorem dockClick_toggles (p : Pane.t) :
  let q := dockClick p in
  (Pane.dock q = Some "left" ∧ Pane.dockLabel q = "Dock Right"
   ∨ Pane.dock q = Some "right" ∧ Pane.dockLabel q = "Dock Left") ∧
  Pane.floating q = false ∧ Pane.transform q = "" ∧
  (Pane.dock p = None ∨ Pane.dock p = Some "" ∨ Pane.dock p = Some "right" →
   Pane.dock q = Some "left") ∧
  (Pane.dock p = Some "left" → Pane.dock q = Some "right") ∧
  Pane.dock (dockClick q) = Some (if String.eqb (orEmpty (Pane.dock q)) "right"
                                  then "left" else "right") ∧
  (Pane.dock p = Some "left" ∨ Pane.dock p = Some "right" →
   Pane.dock (dockClick q) = Pane.dock p) ∧
  dockClick (dockClick q) = q.
Proof.
  cbv zeta. unfold dockClick, toggleDock. cbv zeta.
  cbn [Pane.dock Pane.dockLabel Pane.floating Pane.transform Pane.hidden
       Pane.isOpen Pane.width].
  destruct (Pane.dock p) as [d|] eqn:Hd; cbn [truthy orEmpty default from_option id].
  - destruct (String.eqb_spec d "") as [->|Hne]; cbn [negb].
    + cbn. intuition congruence.
    + destruct (String.eqb_spec d "right") as [->|Hr]; cbn; intuition congruence.
  - cbn. intuition congruence.
Qed.
